(** * sdf-engine: deferred path-tracing pipeline, model loader and camera input

    A shallow embedding of [src/main.cpp] and [src/mesh.cpp].

    - [glm]     : the vector types the two files exchange;
    - [Mesh]    : [load_model] of mesh.cpp (submesh construction with vertex
                  deduplication);
    - [Engine]  : the OpenGL-facing part of main.cpp: G-buffer allocation,
                  material packing, the environment-map future and the
                  per-frame pipeline, as a state/trace monad over the part of
                  the GL context the program touches;
    - [Camera]  : the pointer-drag handler of main.cpp.

    Single-precision values that are stored, copied and compared with [==]
    are elements of an arbitrary type [F], with the comparison and the
    arithmetic on them as parameters (so NaN and the two zeros are covered);
    the pitch/yaw accumulators, which are compared against constants, are
    rationals. *)

From Stdlib Require Import ZArith QArith Lqa Lia List.
From stdpp Require Import base option list gmap strings.

#[local] Open Scope Z_scope.

(* ================================================================== *)
(** * glm vector types *)

Module glm.

Record vec2 (F : Type) := mk_vec2 { x2 : F; y2 : F }.
Record vec3 (F : Type) := mk_vec3 { x : F; y : F; z : F }.
Record vec4 (F : Type) := mk_vec4 { x4 : F; y4 : F; z4 : F; w4 : F }.

Arguments mk_vec2 {F} _ _.
Arguments mk_vec3 {F} _ _ _.
Arguments mk_vec4 {F} _ _ _ _.
Arguments x2 {F} _.
Arguments y2 {F} _.
Arguments x {F} _.
Arguments y {F} _.
Arguments z {F} _.
Arguments x4 {F} _.
Arguments y4 {F} _.
Arguments z4 {F} _.
Arguments w4 {F} _.

(** [glm::vec4 {v, w}] *)
Definition vec4_of_vec3 {F} (v : vec3 F) (w : F) : vec4 F :=
    mk_vec4 (x v) (y v) (z v) w.

(** [glm::vec4 {s}]: the scalar in all four components *)
Definition vec4_splat {F} (s : F) : vec4 F := mk_vec4 s s s s.

(** memory layout of a vec4: four consecutive floats *)
Definition vec4_floats {F} (v : vec4 F) : list F := [x4 v; y4 v; z4 v; w4 v].

End glm.

(* ================================================================== *)
(** * mesh.cpp *)

Module Mesh.
Import glm.

(** Modelled from the spec: the declaration of [Material] (mesh.hpp) is not
    among the sources; these are the four fields main.cpp reads, with the
    types the spec gives them (three colour triples and a scalar). *)
Record Material (F : Type) := mk_Material {
    diffuse : vec3 F;
    specular : vec3 F;
    emission : vec3 F;
    roughness : F
  }.
Arguments mk_Material {F} _ _ _ _.
Arguments diffuse {F} _.
Arguments specular {F} _.
Arguments emission {F} _.
Arguments roughness {F} _.

(** [struct Vertex] as mesh.cpp fills it.  An element of [F] is a float
    value, NaN and the two zeros included; [operator==] on floats is a
    parameter of the loader below, not equality of the values. *)
Record Vertex (F : Type) := mk_Vertex {
    position : vec3 F;
    normal : vec3 F;
    uv : vec2 F
  }.
Arguments mk_Vertex {F} _ _ _.
Arguments position {F} _.
Arguments normal {F} _.
Arguments uv {F} _.

(** [Mesh {vertices, indices, material}] *)
Record Mesh (F : Type) := mk_Mesh {
    vertices : list (Vertex F);
    indices : list Z;                (* uint32_t *)
    material : Material F
  }.
Arguments mk_Mesh {F} _ _ _.
Arguments vertices {F} _.
Arguments indices {F} _.
Arguments material {F} _.

(** [Model {meshes}]; [Model {}] has no submesh. *)
Record Model (F : Type) := mk_Model { meshes : list (Mesh F) }.
Arguments mk_Model {F} _.
Arguments meshes {F} _.

(** ** tinyobj data, as load_model reads it *)

Record index_t := mk_index {
    vertex_index : Z; normal_index : Z; texcoord_index : Z   (* int *)
  }.

#[global] Instance index_t_eq_dec : EqDecision index_t.
Proof. solve_decision. Defined.
#[global] Program Instance index_t_countable : Countable index_t :=
    inj_countable' (fun i => (vertex_index i, normal_index i, texcoord_index i))
                   (fun p => mk_index p.1.1 p.1.2 p.2) _.
Next Obligation. by intros []. Qed.

Record attrib_t (F : Type) := mk_attrib {
    attrib_vertices : list F; attrib_normals : list F; attrib_texcoords : list F
  }.
Arguments mk_attrib {F} _ _ _.
Arguments attrib_vertices {F} _.
Arguments attrib_normals {F} _.
Arguments attrib_texcoords {F} _.

Record mesh_t := mk_mesh_t {
    mesh_indices : list index_t;
    num_face_vertices : list Z;
    material_ids : list Z
  }.

Record shape_t := mk_shape { shape_mesh : mesh_t }.

(** What [tinyobj::ObjReader] holds after a successful [ParseFromFile]. *)
Record ObjReader (F : Type) := mk_reader {
    Warning : string;
    GetAttrib : attrib_t F;
    GetShapes : list shape_t
  }.
Arguments mk_reader {F} _ _ _.
Arguments Warning {F} _.
Arguments GetAttrib {F} _.
Arguments GetShapes {F} _.

(** The file system and the OBJ parser, as load_model sees them. *)
Record World (F : Type) := mk_World {
    fs_exists : string -> bool;                        (* std::filesystem::exists *)
    parent_path : string -> string;                    (* path(p).parent_path().string() *)
    ParseFromFile : string -> string -> option (ObjReader F)
      (* path, mtl_search_path; [None] when ParseFromFile returns false *)
  }.
Arguments mk_World {F} _ _ _.
Arguments fs_exists {F} _ _.
Arguments parent_path {F} _ _.
Arguments ParseFromFile {F} _ _ _.

(** Text written to stderr: the format string and its [%s] argument. *)
Inductive diag := Fprintf_stderr (format : string) (arg : string).

(** [v[i]] on a std::vector with an [int] subscript: reading outside
    [0, size) is undefined behaviour, here [None]. *)
Definition at_ {A} (v : list A) (i : Z) : option A :=
    if bool_decide (0 <= i) then v !! Z.to_nat i else None.

(** [uint32_t id = vertices.size()] *)
Definition to_uint32 (n : Z) : Z := n mod 2 ^ 32.

Section load_model.
Context {F : Type}.
Variable feq : F -> F -> bool.                        (* [a == b] on float *)
Variables (fzero fone : F) (fsub : F -> F -> F).
Variable glm_cross : vec3 F -> vec3 F -> vec3 F.
Variable glm_normalize : vec3 F -> vec3 F.
Variable default_material : Material F.            (* [Material material;] *)

Definition vec3_sub (a b : vec3 F) : vec3 F :=
    mk_vec3 (fsub (x a) (x b)) (fsub (y a) (y b)) (fsub (z a) (z b)).

(** [operator==] of glm::vec2 and glm::vec3: every component compares
    equal. *)
Definition vec2_eq (a b : vec2 F) : bool :=
    feq (x2 a) (x2 b) && feq (y2 a) (y2 b).
Definition vec3_eq (a b : vec3 F) : bool :=
    feq (x a) (x b) && feq (y a) (y b) && feq (z a) (z b).

(** [operator==] of Vertex (lines 29-33): [std::tie] of position, normal and
    uv, compared member by member. *)
Definition Vertex_eq (a b : Vertex F) : bool :=
    vec3_eq (position a) (position b) && vec3_eq (normal a) (normal b)
    && vec2_eq (uv a) (uv b).

(** [std::unordered_map <Vertex, uint32_t>]: its entries, oldest first.  The
    hash of a Vertex (lines 48-75) is computed from [std::hash <float>] of its
    components, which agrees on floats that compare equal, so a key and a
    stored key that compare equal are in the same bucket and the look-up is
    decided by [operator==] alone. *)
Definition vertex_map : Type := list (Vertex F * Z).

(** [m.count(vertex) > 0] and [m[vertex]]: the value stored under a key that
    compares equal to [vertex], if there is one. *)
Definition find_vertex (m : vertex_map) (vertex : Vertex F) : option Z :=
    snd <$> List.find (fun entry => Vertex_eq vertex (fst entry)) m.

(** The four containers declared at the top of the per-shape loop. *)
Record submesh := mk_submesh {
    sm_vertices : list (Vertex F);
    sm_indices : list Z;
    unique_vertices : vertex_map;
    index_map : gmap index_t Z
    }.

Definition submesh_empty : submesh := mk_submesh [] [] [] ∅.

(** [{attrib.vertices[3*i+0], attrib.vertices[3*i+1], attrib.vertices[3*i+2]}] *)
Definition read3 (a : list F) (i : Z) : option (vec3 F) :=
    a0 ← at_ a (3 * i + 0);
    a1 ← at_ a (3 * i + 1);
    a2 ← at_ a (3 * i + 2);
    Some (mk_vec3 a0 a1 a2).

(** Lines 137-187: the vertex of face corner [v]. *)
Definition make_vertex (attrib : attrib_t F) (mesh : mesh_t)
      (offset fv v : Z) (index : index_t) : option (Vertex F) :=
    pos ← read3 (attrib_vertices attrib) (vertex_index index);
    nrm ← (if bool_decide (0 <= normal_index index)
           then read3 (attrib_normals attrib) (normal_index index)
           else
             let pindex := Z.rem (v - 1 + fv) fv in
             let nindex := Z.rem (v + 1) fv in
             p ← at_ (mesh_indices mesh) (offset + pindex);
             n ← at_ (mesh_indices mesh) (offset + nindex);
             vn ← read3 (attrib_vertices attrib) (vertex_index p);
             vp ← read3 (attrib_vertices attrib) (vertex_index n);
             let e1 := vec3_sub vp pos in
             let e2 := vec3_sub vn pos in
             Some (glm_normalize (glm_cross e1 e2)));
    tex ← (if bool_decide (0 <= texcoord_index index)
           then
             t0 ← at_ (attrib_texcoords attrib) (2 * texcoord_index index + 0);
             t1 ← at_ (attrib_texcoords attrib) (2 * texcoord_index index + 1);
             Some (mk_vec2 t0 (fsub fone t1))
           else Some (mk_vec2 fzero fzero));
    Some (mk_Vertex pos nrm tex).

(** Lines 193-204: reuse the id stored under a key that compares equal to
    the vertex, or append the vertex and store it under a new id; then record
    the id for this index triple and emit it.  A vertex with a NaN component
    compares equal to no key, itself included, and is appended every time. *)
Definition add_vertex (index : index_t) (vertex : Vertex F) (s : submesh) : submesh :=
    match find_vertex (unique_vertices s) vertex with
    | Some id =>
        mk_submesh (sm_vertices s) (sm_indices s ++ [id])
                   (unique_vertices s) (<[index := id]> (index_map s))
    | None =>
        let id := to_uint32 (Z.of_nat (length (sm_vertices s))) in
        mk_submesh (sm_vertices s ++ [vertex]) (sm_indices s ++ [id])
                   (unique_vertices s ++ [(vertex, id)])
                   (<[index := id]> (index_map s))
    end.

(** Body of the loop over the corners of one face (lines 128-205). *)
Definition face_vertex (attrib : attrib_t F) (mesh : mesh_t)
      (offset fv v : Z) (s : submesh) : option submesh :=
    index ← at_ (mesh_indices mesh) (offset + v);
    match index_map s !! index with
    | Some id =>
        Some (mk_submesh (sm_vertices s) (sm_indices s ++ [id])
                         (unique_vertices s) (index_map s))
    | None =>
        vertex ← make_vertex attrib mesh offset fv v index;
        Some (add_vertex index vertex s)
    end.

(** [for (int v = 0; v < fv; v++)], with [n] iterations left. *)
Fixpoint face_loop (attrib : attrib_t F) (mesh : mesh_t)
      (offset fv : Z) (n : nat) (v : Z) (s : submesh) : option submesh :=
    match n with
    | O => Some s
    | S n' =>
        s' ← face_vertex attrib mesh offset fv v s;
        face_loop attrib mesh offset fv n' (v + 1) s'
    end.

(** [for (int f = 0; f < mesh.num_face_vertices.size(); f++)], with [n]
    iterations left; carries [offset], the open submesh and [meshes]. *)
Fixpoint faces_loop (attrib : attrib_t F) (mesh : mesh_t) (n : nat) (f : Z)
      (offset : Z) (s : submesh) (out : list (Mesh F)) : option (list (Mesh F)) :=
    match n with
    | O => Some out
    | S n' =>
        fv ← at_ (num_face_vertices mesh) f;
        s1 ← face_loop attrib mesh offset fv (Z.to_nat fv) 0 s;
        let offset := offset + fv in
        last ← (if bool_decide (f = Z.of_nat (length (num_face_vertices mesh)) - 1)
                then Some true
                else
                  m0 ← at_ (material_ids mesh) f;
                  m1 ← at_ (material_ids mesh) (f + 1);
                  Some (bool_decide (m0 ≠ m1)));
        if (last : bool)
        then faces_loop attrib mesh n' (f + 1) offset submesh_empty
               (out ++ [mk_Mesh (sm_vertices s1) (sm_indices s1) default_material])
        else faces_loop attrib mesh n' (f + 1) offset s1 out
    end.

(** [for (int i = 0; i < shapes.size(); i++)] *)
Fixpoint shapes_loop (attrib : attrib_t F) (shapes : list shape_t)
      (out : list (Mesh F)) : option (list (Mesh F)) :=
    match shapes with
    | [] => Some out
    | shape :: rest =>
        let mesh := shape_mesh shape in
        out' ← faces_loop attrib mesh (length (num_face_vertices mesh)) 0 0
                 submesh_empty out;
        shapes_loop attrib rest out'
    end.

(** [Model load_model(const std::string &path)]: what is written to stderr
    and the returned model ([None]: the loop read outside a vector). *)
Definition load_model (w : World F) (path : string) : list diag * option (Model F) :=
    if negb (fs_exists w path)
    then ([Fprintf_stderr "Could not find model at path provided: %s" path],
          Some (mk_Model []))
    else
      match ParseFromFile w path (parent_path w path) with
      | None => ([Fprintf_stderr "Failed to load model: %s" path], Some (mk_Model []))
      | Some reader =>
          (if bool_decide (Warning reader = "")
           then []
           else [Fprintf_stderr "Warning: %s" (Warning reader)],
           meshes ← shapes_loop (GetAttrib reader) (GetShapes reader) [];
           Some (mk_Model meshes))
      end.

(** What holds of the four containers between two face corners: no stored
    vertex compares equal to one stored before it, [unique_vertices] has one
    entry per stored vertex, in the same order, and every id in either map or
    already emitted is below the number of stored vertices. *)
Definition in_range (s : submesh) (id : Z) : Prop :=
    0 <= id < Z.of_nat (length (sm_vertices s)).

Definition later_differs (vs : list (Vertex F)) : Prop :=
    forall (i j : nat) (a b : Vertex F),
      vs !! i = Some a -> vs !! j = Some b -> (i < j)%nat -> Vertex_eq b a = false.

Definition submesh_inv (s : submesh) : Prop :=
    later_differs (sm_vertices s)
    /\ map fst (unique_vertices s) = sm_vertices s
    /\ Forall (fun entry => in_range s (snd entry)) (unique_vertices s)
    /\ (forall k id, index_map s !! k = Some id -> in_range s id)
    /\ Forall (in_range s) (sm_indices s).

(** No two stored vertices compare equal. *)
Definition stored_once (vs : list (Vertex F)) : Prop :=
    forall (i j : nat) (a b : Vertex F),
      vs !! i = Some a -> vs !! j = Some b -> i <> j -> Vertex_eq a b = false.

(** The two properties of a finished submesh. *)
Definition mesh_ok (m : Mesh F) : Prop :=
    Forall (fun i => 0 <= i < Z.of_nat (length (vertices m))) (indices m)
    /\ stored_once (vertices m).

End load_model.

(** ** Inputs for evaluating the loader *)

(** A unit square as two triangles sharing an edge, with one normal and no
    texture coordinates, over integer coordinates. *)
Definition quad_attrib : attrib_t Z :=
    mk_attrib [0; 0; 0;  1; 0; 0;  1; 1; 0;  0; 1; 0] [0; 0; 1] [].

Definition quad_shape : shape_t :=
    mk_shape (mk_mesh_t
      [mk_index 0 0 (-1); mk_index 1 0 (-1); mk_index 2 0 (-1);
       mk_index 0 0 (-1); mk_index 2 0 (-1); mk_index 3 0 (-1)]
      [3; 3] [0; 0]).

Definition quad_world : World Z :=
    mk_World (fun _ => true) (fun _ => "models")
             (fun _ _ => Some (mk_reader "" quad_attrib [quad_shape])).

(** The same square from a file that lists the position of its first corner
    twice: the second triangle names the copy (position 4 in place of 0). *)
Definition weld_attrib : attrib_t Z :=
    mk_attrib [0; 0; 0;  1; 0; 0;  1; 1; 0;  0; 1; 0;  0; 0; 0] [0; 0; 1] [].

Definition weld_shape : shape_t :=
    mk_shape (mk_mesh_t
      [mk_index 0 0 (-1); mk_index 1 0 (-1); mk_index 2 0 (-1);
       mk_index 4 0 (-1); mk_index 2 0 (-1); mk_index 3 0 (-1)]
      [3; 3] [0; 0]).

Definition weld_world : World Z :=
    mk_World (fun _ => true) (fun _ => "models")
             (fun _ _ => Some (mk_reader "" weld_attrib [weld_shape])).


Definition Z_cross (a b : vec3 Z) : vec3 Z :=
    mk_vec3 (y a * z b - y b * z a) (z a * x b - z b * x a) (x a * y b - x b * y a).

Definition black : Material Z :=
    mk_Material (mk_vec3 0 0 0) (mk_vec3 0 0 0) (mk_vec3 0 0 0) 0.

Definition load_model_Z (w : World Z) (path : string) : list diag * option (Model Z) :=
    load_model Z.eqb 0 1 Z.sub Z_cross (fun v => v) black w path.

(** Floats with NaN: the values that occur when the loader runs on the
    degenerate triangle below are integers of small magnitude, on which
    single-precision subtraction and multiplication are exact, and NaN. *)
Inductive fl := Fin (n : Z) | NaN.

(** [a == b]: false as soon as one side is NaN. *)
Definition fl_eq (a b : fl) : bool :=
    match a, b with
    | Fin n, Fin m => n =? m
    | _, _ => false
    end.

Definition fl_sub (a b : fl) : fl :=
    match a, b with
    | Fin n, Fin m => Fin (n - m)
    | _, _ => NaN
    end.

Definition fl_mul (a b : fl) : fl :=
    match a, b with
    | Fin n, Fin m => Fin (n * m)
    | _, _ => NaN
    end.

(** [glm::cross] *)
Definition fl_cross (a b : vec3 fl) : vec3 fl :=
    mk_vec3 (fl_sub (fl_mul (y a) (z b)) (fl_mul (y b) (z a)))
            (fl_sub (fl_mul (z a) (x b)) (fl_mul (z b) (x a)))
            (fl_sub (fl_mul (x a) (y b)) (fl_mul (x b) (y a))).

(** [glm::normalize (v) = v * inversesqrt (dot (v, v))].  A vector of length
    one is multiplied by 1.  The zero vector is multiplied by
    [inversesqrt (0)], which is infinite, and 0 times infinity is NaN in every
    component.  Other lengths need a square root that [fl] cannot express;
    the loader does not meet them on the input below, and what they are given
    here (NaN) stands for no value of the program. *)
Definition fl_normalize (v : vec3 fl) : vec3 fl :=
    match x v, y v, z v with
    | Fin a, Fin b, Fin c =>
        if a * a + b * b + c * c =? 1 then v else mk_vec3 NaN NaN NaN
    | _, _, _ => mk_vec3 NaN NaN NaN
    end.

Definition fl_black : Material fl :=
    mk_Material (mk_vec3 (Fin 0) (Fin 0) (Fin 0)) (mk_vec3 (Fin 0) (Fin 0) (Fin 0))
                (mk_vec3 (Fin 0) (Fin 0) (Fin 0)) (Fin 0).

Definition load_model_fl (w : World fl) (path : string) : list diag * option (Model fl) :=
    load_model fl_eq (Fin 0) (Fin 1) fl_sub fl_cross fl_normalize fl_black w path.

(** A vertex whose normal is NaN in every component. *)
Definition nan_vertex : Vertex fl :=
    mk_Vertex (mk_vec3 (Fin 0) (Fin 0) (Fin 0)) (mk_vec3 NaN NaN NaN)
              (mk_vec2 (Fin 0) (Fin 0)).

(** A triangle two of whose corners coincide, without normals or texture
    coordinates: [v 0 0 0], [v 0 0 0], [v 1 0 0], [f 1 2 3]. *)
Definition degenerate_attrib : attrib_t fl :=
    mk_attrib [Fin 0; Fin 0; Fin 0;  Fin 0; Fin 0; Fin 0;  Fin 1; Fin 0; Fin 0] [] [].

Definition degenerate_shape : shape_t :=
    mk_shape (mk_mesh_t
      [mk_index 0 (-1) (-1); mk_index 1 (-1) (-1); mk_index 2 (-1) (-1)]
      [3] [-1]).

Definition degenerate_world : World fl :=
    mk_World (fun _ => true) (fun _ => "models")
             (fun _ _ => Some (mk_reader "" degenerate_attrib [degenerate_shape])).

(** ** The comparison operators on [tinyobj::index_t] (lines 15-25) *)

(** [std::tie(a...) < std::tie(b...)]: lexicographic on the three ints. *)
Definition index_lt (a b : index_t) : bool :=
    if vertex_index a <? vertex_index b then true
    else if vertex_index b <? vertex_index a then false
    else if normal_index a <? normal_index b then true
    else if normal_index b <? normal_index a then false
    else texcoord_index a <? texcoord_index b.

(** [std::tie(a...) == std::tie(b...)] *)
Definition index_eq (a b : index_t) : bool :=
    (vertex_index a =? vertex_index b) && (normal_index a =? normal_index b)
    && (texcoord_index a =? texcoord_index b).

(** ** Reading a shape and a model *)

(** The face corners the loop over a shape visits: [fv] per face. *)
Definition corner_count (mesh : mesh_t) : nat :=
    sum_list (map Z.to_nat (num_face_vertices mesh)).

Definition corners (mesh : mesh_t) : list index_t :=
    take (corner_count mesh) (mesh_indices mesh).

(** Face [f] closes a submesh: it is the last face, or the next face has
    another material id (line 212). *)
Definition closes_submesh (mesh : mesh_t) (f : nat) : bool :=
    bool_decide (S f = length (num_face_vertices mesh))
    || bool_decide (material_ids mesh !! f ≠ material_ids mesh !! S f).

Definition submesh_count (mesh : mesh_t) : nat :=
    length (List.filter (closes_submesh mesh) (seq 0 (length (num_face_vertices mesh)))).

Definition total_indices {F} (meshes : list (Mesh F)) : nat :=
    sum_list (map (fun m => length (indices m)) meshes).

(** The vertex each index of a submesh refers to, in index order. *)
Definition referenced {F} (m : Mesh F) : list (option (Vertex F)) :=
    map (fun i => vertices m !! Z.to_nat i) (indices m).

(** The eight floats of a vertex. *)
Definition components {F} (v : Vertex F) : list F :=
    [x (position v); y (position v); z (position v);
     x (normal v); y (normal v); z (normal v); x2 (uv v); y2 (uv v)].

Section corner.
Context {F : Type}.
Variable feq : F -> F -> bool.
Variables (fzero fone : F) (fsub : F -> F -> F).

(** The texture coordinate of a corner (lines 180-187). *)
Definition corner_uv (attrib : attrib_t F) (index : index_t) : option (vec2 F) :=
    if bool_decide (0 <= texcoord_index index)
    then
      t0 ← at_ (attrib_texcoords attrib) (2 * texcoord_index index + 0);
      t1 ← at_ (attrib_texcoords attrib) (2 * texcoord_index index + 1);
      Some (mk_vec2 t0 (fsub fone t1))
    else Some (mk_vec2 fzero fzero).

(** What the loader does not tell apart: the value itself, or a value that
    it compares equal to. *)
Definition vec2_same (a b : vec2 F) : Prop := a = b \/ vec2_eq feq a b = true.
Definition vec3_same (a b : vec3 F) : Prop := a = b \/ vec3_eq feq a b = true.

(** A stored vertex carries what the index triple selects: the position,
    the texture coordinate and, when the triple names a normal, the normal
    are the selected ones or compare equal to them. *)
Definition carries (attrib : attrib_t F) (v : Vertex F) (index : index_t) : Prop :=
    (exists pos, read3 (attrib_vertices attrib) (vertex_index index) = Some pos
                 /\ vec3_same pos (position v))
    /\ (exists tex, corner_uv attrib index = Some tex /\ vec2_same tex (uv v))
    /\ (0 <= normal_index index ->
        exists nrm, read3 (attrib_normals attrib) (normal_index index) = Some nrm
                    /\ vec3_same nrm (normal v)).

(** An index triple all of whose parts can be read. *)
Definition readable (attrib : attrib_t F) (index : index_t) : Prop :=
    (0 <= vertex_index index
     /\ 3 * vertex_index index + 2 < Z.of_nat (length (attrib_vertices attrib)))
    /\ (normal_index index < 0
        \/ 3 * normal_index index + 2 < Z.of_nat (length (attrib_normals attrib)))
    /\ (texcoord_index index < 0
        \/ 2 * texcoord_index index + 1 < Z.of_nat (length (attrib_texcoords attrib))).

(** Parser output the loop can traverse: face sizes are not negative, the
    index stream has a triple for every corner, every face has a material
    id, and every triple is readable. *)
Definition traversable (attrib : attrib_t F) (mesh : mesh_t) : Prop :=
    Forall (fun fv => 0 <= fv) (num_face_vertices mesh)
    /\ (corner_count mesh <= length (mesh_indices mesh))%nat
    /\ (length (num_face_vertices mesh) <= length (material_ids mesh))%nat
    /\ Forall (readable attrib) (mesh_indices mesh).

End corner.

Section faithful.
Context {F : Type}.
Variable feq : F -> F -> bool.
Variables (fzero fone : F) (fsub : F -> F -> F).
Variable attrib : attrib_t F.

(** What an index refers to carries what the corner's triple selects. *)
Definition refers (ov : option (Vertex F)) (index : index_t) : Prop :=
    exists v, ov = Some v /\ carries feq fzero fone fsub attrib v index.

(** The containers agree with the corners [ks] consumed so far: every
    emitted index, and every id kept in [index_map], refers to a vertex that
    carries the triple; [unique_vertices] maps every key to its own position
    in the list; every stored vertex has been emitted. *)
Definition faithful (s : submesh (F:=F)) (ks : list index_t) : Prop :=
    submesh_inv feq s
    /\ Forall2 (fun i k => refers (sm_vertices s !! Z.to_nat i) k) (sm_indices s) ks
    /\ (forall k id, index_map s !! k = Some id -> refers (sm_vertices s !! Z.to_nat id) k)
    /\ Forall (fun entry => sm_vertices s !! Z.to_nat (snd entry) = Some (fst entry))
              (unique_vertices s)
    /\ (forall j, (j < length (sm_vertices s))%nat -> Z.of_nat j ∈ sm_indices s)
    /\ (length (sm_vertices s) <= length (sm_indices s))%nat.

(** No stored vertex of a finished submesh is left unreferenced. *)
Definition covered (m : Mesh F) : Prop :=
    forall j, (j < length (vertices m))%nat -> Z.of_nat j ∈ indices m.

End faithful.

(** Two faces of the quad with different material ids. *)
Definition split_shape : shape_t :=
    mk_shape (mk_mesh_t
      [mk_index 0 0 (-1); mk_index 1 0 (-1); mk_index 2 0 (-1);
       mk_index 0 0 (-1); mk_index 2 0 (-1); mk_index 3 0 (-1)]
      [3; 3] [0; 1]).

Definition split_world : World Z :=
    mk_World (fun _ => true) (fun _ => "models")
             (fun _ _ => Some (mk_reader "" quad_attrib [quad_shape; split_shape])).

End Mesh.

(* ================================================================== *)
(** * main.cpp: the render pipeline *)

Module Engine.
Import glm.

Definition RENDER_WIDTH : Z := 1000.
Definition RENDER_HEIGHT : Z := 1000.

(** OpenGL enumerants used below (values of the GL headers). *)
Definition GL_TEXTURE0 : Z := 0x84C0.
Definition GL_TEXTURE1 : Z := GL_TEXTURE0 + 1.
Definition GL_TEXTURE2 : Z := GL_TEXTURE0 + 2.
Definition GL_TEXTURE3 : Z := GL_TEXTURE0 + 3.
Definition GL_TEXTURE4 : Z := GL_TEXTURE0 + 4.
Definition GL_TEXTURE5 : Z := GL_TEXTURE0 + 5.
Definition GL_COLOR_ATTACHMENT0 : Z := 0x8CE0.
Definition GL_COLOR_ATTACHMENT1 : Z := GL_COLOR_ATTACHMENT0 + 1.
Definition GL_COLOR_ATTACHMENT2 : Z := GL_COLOR_ATTACHMENT0 + 2.
Definition GL_DEPTH_ATTACHMENT : Z := 0x8D00.

Inductive internalformat := GL_RGB16F | GL_R32UI | GL_RGBA32F | GL_DEPTH_COMPONENT.
Inductive filter := GL_NEAREST | GL_LINEAR.
Inductive filter_name := GL_TEXTURE_MIN_FILTER | GL_TEXTURE_MAG_FILTER.
Inductive log_level := eLogError | eLogInfo.

(** The values [glCheckFramebufferStatus] can return. *)
Inductive framebuffer_status :=
  | GL_FRAMEBUFFER_COMPLETE
  | GL_FRAMEBUFFER_UNDEFINED
  | GL_FRAMEBUFFER_INCOMPLETE_ATTACHMENT
  | GL_FRAMEBUFFER_INCOMPLETE_MISSING_ATTACHMENT
  | GL_FRAMEBUFFER_INCOMPLETE_DRAW_BUFFER
  | GL_FRAMEBUFFER_INCOMPLETE_READ_BUFFER
  | GL_FRAMEBUFFER_UNSUPPORTED
  | GL_FRAMEBUFFER_INCOMPLETE_MULTISAMPLE
  | GL_FRAMEBUFFER_INCOMPLETE_LAYER_TARGETS
  | GL_STATUS_ERROR.                          (* 0: the call itself failed *)

(** [status != GL_FRAMEBUFFER_COMPLETE] *)
Definition not_complete (status : framebuffer_status) : bool :=
    match status with GL_FRAMEBUFFER_COMPLETE => false | _ => true end.

(** [struct Framebuffer]; [Framebuffer {}] is all zeros. *)
Record Framebuffer := mk_Framebuffer {
    framebuffer : Z;
    g_position : Z;
    g_normal : Z;
    g_material_index : Z
  }.

Definition Framebuffer_empty : Framebuffer := mk_Framebuffer 0 0 0 0.

(** The fields of [GLBuffers] the frame reads; [source_material_index] is
    [source->material_index]. *)
Record GLBuffers := mk_GLBuffers {
    vao : Z;
    count : Z;
    source_material_index : Z
  }.

(** The [pt] struct. *)
Record PathTracer := mk_pt {
    materials_texture : Z;
    environment_map : Z;
    render_target : Z
  }.

(** [struct CompressedMaterial] *)
Record CompressedMaterial (F : Type) := mk_CompressedMaterial {
    diffuse : vec4 F;
    specular : vec4 F;
    emission : vec4 F;
    roughness : vec4 F
  }.
Arguments mk_CompressedMaterial {F} _ _ _ _.
Arguments diffuse {F} _.
Arguments specular {F} _.
Arguments emission {F} _.
Arguments roughness {F} _.

(** [sizeof(CompressedMaterial)/sizeof(glm::vec4)] *)
Definition stride : Z := 4.

(** [materials.data()]: the records laid out one after another, each as its
    four vec4 in declaration order. *)
Definition CompressedMaterial_texels {F} (m : CompressedMaterial F) : list (vec4 F) :=
    [diffuse m; specular m; emission m; roughness m].

Definition materials_data {F} (materials : list (CompressedMaterial F)) : list F :=
    concat (map vec4_floats (concat (map CompressedMaterial_texels materials))).

(** Conversion of a [size_t] product to the [GLsizei] (32-bit int) parameter. *)
Definition to_size_t (n : Z) : Z := n mod 2 ^ 64.
Definition to_GLsizei (n : Z) : Z :=
    let r := n mod 2 ^ 32 in if bool_decide (r < 2 ^ 31) then r else r - 2 ^ 32.

(** A [float *]: [None] is the null pointer, otherwise the floats it points to. *)
Definition buffer (F : Type) : Type := option (list F).

(** [std::tuple <float *, int, int>] *)
Definition exr_result (F : Type) : Type := (buffer F * Z * Z)%type.

(** What [LoadEXR] hands back: the return code, the three out-parameters and
    the error text. *)
Record LoadEXR_out (F : Type) := mk_LoadEXR {
    ret : Z;
    out_data : buffer F;
    out_width : Z;
    out_height : Z;
    error : string
  }.
Arguments mk_LoadEXR {F} _ _ _ _ _.
Arguments ret {F} _.
Arguments out_data {F} _.
Arguments out_width {F} _.
Arguments out_height {F} _.
Arguments error {F} _.

(** The [std::future]: its shared state is pending or holds the task's value;
    after [get()] the future is no longer [valid()]. *)
Inductive future (F : Type) :=
  | Pending
  | Ready (r : exr_result F)
  | Invalid.
Arguments Pending {F}.
Arguments Ready {F} _.
Arguments Invalid {F}.

(** Everything observable the program does, in program order. *)
Inductive event (F : Type) :=
  | GenFramebuffers (name : Z)
  | GenTextures (name : Z)
  | BindFramebuffer (fb : Z)
  | BindTexture (texture : Z)
  | ActiveTexture (unit : Z)
  | TexImage2D (fmt : internalformat) (width height : Z) (data : buffer F)
  | TexParameteri (pname : filter_name) (param : filter)
  | FramebufferTexture2D (attachment texture : Z)
  | DrawBuffers (attachments : list Z)
  | CheckFramebufferStatus (status : framebuffer_status)
  | ClearColor
  | Clear
  | UseProgram (program : Z)
  | SetMat4 (program : Z) (name : string)
  | SetUint (program : Z) (name : string) (value : Z)
  | SetVec3 (program : Z) (name : string)
  | BindVertexArray (array : Z)
  | DrawElements (count : Z)
  | BindImageTexture (unit texture : Z)
  | DispatchCompute (num_groups_x num_groups_y num_groups_z : Z)
  | FutureGet
  | Free (p : buffer F)
  | Printf (format : string) (args : list Z)
  | Fprintf_stderr (text : string)
  | Logf (level : log_level) (format : string).
Arguments GenFramebuffers {F} _.
Arguments GenTextures {F} _.
Arguments BindFramebuffer {F} _.
Arguments BindTexture {F} _.
Arguments ActiveTexture {F} _.
Arguments TexImage2D {F} _ _ _ _.
Arguments TexParameteri {F} _ _.
Arguments FramebufferTexture2D {F} _ _.
Arguments DrawBuffers {F} _.
Arguments CheckFramebufferStatus {F} _.
Arguments ClearColor {F}.
Arguments Clear {F}.
Arguments UseProgram {F} _.
Arguments SetMat4 {F} _ _.
Arguments SetUint {F} _ _ _.
Arguments SetVec3 {F} _ _.
Arguments BindVertexArray {F} _.
Arguments DrawElements {F} _.
Arguments BindImageTexture {F} _ _.
Arguments DispatchCompute {F} _ _ _.
Arguments FutureGet {F}.
Arguments Free {F} _.
Arguments Printf {F} _ _.
Arguments Fprintf_stderr {F} _.
Arguments Logf {F} _ _.

(** The part of the GL context and of the program's globals that the
    pipeline reads or writes. *)
Record state (F : Type) := mk_state {
    next_texture : Z;                 (* smallest texture name not yet handed out *)
    next_framebuffer : Z;
    active_texture : Z;               (* unit selected by glActiveTexture *)
    texture_binding : gmap Z Z;       (* unit -> texture bound to GL_TEXTURE_2D *)
    images : gmap Z (Z * Z);          (* texture -> (width, height) of level 0 *)
    pt : PathTracer;
    fut : future F
  }.
Arguments mk_state {F} _ _ _ _ _ _ _.
Arguments next_texture {F} _.
Arguments next_framebuffer {F} _.
Arguments active_texture {F} _.
Arguments texture_binding {F} _.
Arguments images {F} _.
Arguments pt {F} _.
Arguments fut {F} _.

(** A fresh context: names start at 1, unit 0 is active, nothing is bound. *)
Definition initial_state {F} : state F :=
    mk_state 1 1 GL_TEXTURE0 ∅ ∅ (mk_pt 0 0 0) Invalid.

Section pipeline.
Context {F : Type}.
Variable fone : F.                                     (* 1.0f *)

(** ** The monad: state, an event trace, and undefined behaviour as [None] *)

Definition M (A : Type) : Type := state F -> list (event F) * option (A * state F).

Definition M_ret {A} (a : A) : M A := fun s => ([], Some (a, s)).

Definition M_bind {A B} (f : A -> M B) (m : M A) : M B :=
    fun s =>
      match m s with
      | (t, Some (a, s')) => let '(t', r) := f a s' in (t ++ t', r)
      | (t, None) => (t, None)
      end.

#[global] Instance M_MRet : MRet M := @M_ret.
#[global] Instance M_MBind : MBind M := @M_bind.

Definition emit (e : event F) : M unit := fun s => ([e], Some (tt, s)).
Definition emit_all (t : list (event F)) : M unit := fun s => (t, Some (tt, s)).
Definition get : M (state F) := fun s => ([], Some (s, s)).
Definition put (s : state F) : M unit := fun _ => ([], Some (tt, s)).
Definition undefined {A} : M A := fun s => ([], None).

(** [v[i]] on a std::vector: outside [0, size) the behaviour is undefined. *)
Definition vector_at {A} (v : list A) (i : nat) : M A :=
    match v !! i with Some a => mret a | None => undefined end.

(** ** Field updates *)

Definition set_next_texture (v : Z) (s : state F) : state F :=
    mk_state v (next_framebuffer s) (active_texture s) (texture_binding s)
             (images s) (pt s) (fut s).
Definition set_next_framebuffer (v : Z) (s : state F) : state F :=
    mk_state (next_texture s) v (active_texture s) (texture_binding s)
             (images s) (pt s) (fut s).
Definition set_active_texture (v : Z) (s : state F) : state F :=
    mk_state (next_texture s) (next_framebuffer s) v (texture_binding s)
             (images s) (pt s) (fut s).
Definition set_texture_binding (v : gmap Z Z) (s : state F) : state F :=
    mk_state (next_texture s) (next_framebuffer s) (active_texture s) v
             (images s) (pt s) (fut s).
Definition set_images (v : gmap Z (Z * Z)) (s : state F) : state F :=
    mk_state (next_texture s) (next_framebuffer s) (active_texture s)
             (texture_binding s) v (pt s) (fut s).
Definition set_pt (v : PathTracer) (s : state F) : state F :=
    mk_state (next_texture s) (next_framebuffer s) (active_texture s)
             (texture_binding s) (images s) v (fut s).
Definition set_fut (v : future F) (s : state F) : state F :=
    mk_state (next_texture s) (next_framebuffer s) (active_texture s)
             (texture_binding s) (images s) (pt s) v.

Definition modify (f : state F -> state F) : M unit := s ← get; put (f s).

(** ** The GL entry points the program calls *)

Definition glGenFramebuffers : M Z :=
    s ← get;
    let name := next_framebuffer s in
    put (set_next_framebuffer (name + 1) s);;
    emit (GenFramebuffers name);;
    mret name.

Definition glGenTextures : M Z :=
    s ← get;
    let name := next_texture s in
    put (set_next_texture (name + 1) s);;
    emit (GenTextures name);;
    mret name.

Definition glActiveTexture (texture : Z) : M unit :=
    modify (set_active_texture texture);;
    emit (ActiveTexture texture).

(** [glBindTexture(GL_TEXTURE_2D, texture)]: binds on the active unit. *)
Definition glBindTexture (texture : Z) : M unit :=
    modify (fun s => set_texture_binding (<[active_texture s := texture]> (texture_binding s)) s);;
    emit (BindTexture texture).

(** The texture bound to GL_TEXTURE_2D on the active unit (0 when none). *)
Definition bound_texture (s : state F) : Z :=
    default 0 (texture_binding s !! active_texture s).

(** [glTexImage2D(GL_TEXTURE_2D, 0, fmt, width, height, 0, ..., data)]:
    (re)defines level 0 of the bound texture. *)
Definition glTexImage2D (fmt : internalformat) (width height : Z) (data : buffer F) : M unit :=
    modify (fun s => set_images (<[bound_texture s := (width, height)]> (images s)) s);;
    emit (TexImage2D fmt width height data).

Definition glTexParameteri (pname : filter_name) (param : filter) : M unit :=
    emit (TexParameteri pname param).

(** [glCheckFramebufferStatus]: the answer is the GL implementation's. *)
Definition glCheckFramebufferStatus (status : framebuffer_status) : M framebuffer_status :=
    emit (CheckFramebufferStatus status);; mret status.

(** ** allocate_gl_framebuffer (lines 324-388) *)

(** One G-buffer texture: generate, bind, allocate, set both filters. *)
Definition gen_gbuffer_texture (fmt : internalformat) : M Z :=
    t ← glGenTextures;
    glBindTexture t;;
    glTexImage2D fmt RENDER_WIDTH RENDER_HEIGHT None;;
    glTexParameteri GL_TEXTURE_MIN_FILTER GL_NEAREST;;
    glTexParameteri GL_TEXTURE_MAG_FILTER GL_NEAREST;;
    mret t.

Definition allocate_gl_framebuffer (status : framebuffer_status) : M Framebuffer :=
    g_buffer ← glGenFramebuffers;
    g_position ← gen_gbuffer_texture GL_RGB16F;
    g_normal ← gen_gbuffer_texture GL_RGB16F;
    g_material_index ← gen_gbuffer_texture GL_R32UI;
    emit (BindFramebuffer g_buffer);;
    emit (FramebufferTexture2D GL_COLOR_ATTACHMENT0 g_position);;
    emit (FramebufferTexture2D GL_COLOR_ATTACHMENT1 g_normal);;
    emit (FramebufferTexture2D GL_COLOR_ATTACHMENT2 g_material_index);;
    emit (DrawBuffers [GL_COLOR_ATTACHMENT0; GL_COLOR_ATTACHMENT1; GL_COLOR_ATTACHMENT2]);;
    g_depth ← glGenTextures;
    glBindTexture g_depth;;
    glTexImage2D GL_DEPTH_COMPONENT RENDER_WIDTH RENDER_HEIGHT None;;
    emit (FramebufferTexture2D GL_DEPTH_ATTACHMENT g_depth);;
    st ← glCheckFramebufferStatus status;
    if not_complete st
    then
      emit (Fprintf_stderr "Framebuffer is not complete!\n");;
      mret Framebuffer_empty
    else
      emit (BindFramebuffer 0);;
      mret (mk_Framebuffer g_buffer g_position g_normal g_material_index).

(** ** allocate_pt_materials (lines 390-415) *)

(** Body of the loop over [Material::all]. *)
Definition compress (material : Mesh.Material F) : CompressedMaterial F :=
    mk_CompressedMaterial
      (vec4_of_vec3 (Mesh.diffuse material) fone)
      (vec4_of_vec3 (Mesh.specular material) fone)
      (vec4_of_vec3 (Mesh.emission material) fone)
      (vec4_splat (Mesh.roughness material)).

(** [for (const Material &material : Material::all) ... push_back] *)
Definition compress_all (all : list (Mesh.Material F)) : list (CompressedMaterial F) :=
    fold_left (fun materials material => materials ++ [compress material]) all [].

Definition allocate_pt_materials (all : list (Mesh.Material F)) : M unit :=
    emit (Printf "Allocating %lu materials for path tracer\n" [Z.of_nat (length all)]);;
    let materials := compress_all all in
    t ← glGenTextures;
    modify (fun s => set_pt (mk_pt t (environment_map (pt s)) (render_target (pt s))) s);;
    glBindTexture t;;
    glTexImage2D GL_RGBA32F
      (to_GLsizei (to_size_t (stride * Z.of_nat (length materials)))) 1
      (Some (materials_data materials));;
    glTexParameteri GL_TEXTURE_MIN_FILTER GL_NEAREST;;
    glTexParameteri GL_TEXTURE_MAG_FILTER GL_NEAREST;;
    glBindTexture 0.

(** ** The environment-map task (lines 149-168) *)

(** The [exr_loader] lambda: what it logs and the tuple it returns. *)
Definition exr_loader (l : LoadEXR_out F) : list (event F) * exr_result F :=
    if bool_decide (ret l ≠ 0)
    then ([Logf eLogError "Error loading EXR: %s"], (None, 0, 0))
    else ([Logf eLogInfo "Loaded EXR: %d x %d"], (out_data l, out_width l, out_height l)).

(** The background task finishing: a pending shared state receives the
    loader's value. *)
Definition task_finishes (l : LoadEXR_out F) : M unit :=
    s ← get;
    match fut s return M unit with
    | Pending =>
        let '(log, r) := exr_loader l in
        emit_all log;; put (set_fut (Ready r) s)
    | _ => mret tt
    end.

Definition future_valid : M bool :=
    s ← get; mret (match fut s with Invalid => false | _ => true end).

(** [future.wait_for(std::chrono::seconds(0)) == std::future_status::ready] *)
Definition future_ready_now : M bool :=
    s ← get; mret (match fut s with Ready _ => true | _ => false end).

(** [future.get()]: moves the value out and leaves the future invalid. *)
Definition future_get : M (exr_result F) :=
    s ← get;
    match fut s return M (exr_result F) with
    | Ready r => emit FutureGet;; put (set_fut Invalid s);; mret r
    | _ => undefined
    end.

(** ** render_pt_pipeline (lines 417-507) *)

(** [for (const GLBuffers &buffer : buffers)] *)
Fixpoint draw_loop (shader_program : Z) (buffers : list GLBuffers) : M unit :=
    match buffers with
    | [] => mret tt
    | buffer :: rest =>
        let material_index := source_material_index buffer in
        emit (SetUint shader_program "material_index" material_index);;
        emit (BindVertexArray (vao buffer));;
        emit (DrawElements (count buffer));;
        draw_loop shader_program rest
    end.

(** Lines 467-494. *)
Definition environment_map_loading : M unit :=
    valid ← future_valid;
    if (valid : bool)
    then
      ready ← future_ready_now;
      (if (ready : bool)
       then
         result ← future_get;
         let '(data, width, height) := result in
         emit (Printf "Creating environment map texture\n" []);;
         t ← glGenTextures;
         modify (fun s => set_pt (mk_pt (materials_texture (pt s)) t (render_target (pt s))) s);;
         glBindTexture t;;
         glTexImage2D GL_RGBA32F width height data;;
         glTexParameteri GL_TEXTURE_MIN_FILTER GL_LINEAR;;
         glTexParameteri GL_TEXTURE_MAG_FILTER GL_LINEAR;;
         emit (Free data);;
         glBindTexture 0
       else mret tt);;
      glActiveTexture GL_TEXTURE5;;
      glBindTexture 0
    else
      glActiveTexture GL_TEXTURE5;;
      s ← get;
      glBindTexture (environment_map (pt s)).

Definition render_pt_pipeline (fb : Framebuffer) (buffers : list GLBuffers)
      (shader_program path_tracer_program : Z) : M unit :=
    emit (BindFramebuffer (framebuffer fb));;
    emit ClearColor;;
    emit Clear;;
    emit (UseProgram shader_program);;
    emit (SetMat4 shader_program "model");;
    emit (SetMat4 shader_program "view");;
    emit (SetMat4 shader_program "projection");;
    b0 ← vector_at buffers 0;
    emit (BindVertexArray (vao b0));;
    draw_loop shader_program buffers;;
    emit (UseProgram path_tracer_program);;
    glActiveTexture GL_TEXTURE1;;
    glBindTexture (g_position fb);;
    glActiveTexture GL_TEXTURE2;;
    glBindTexture (g_normal fb);;
    glActiveTexture GL_TEXTURE4;;
    glBindTexture (g_material_index fb);;
    glActiveTexture GL_TEXTURE3;;
    s ← get;
    glBindTexture (materials_texture (pt s));;
    environment_map_loading;;
    s ← get;
    emit (BindImageTexture 0 (render_target (pt s)));;
    emit (SetVec3 path_tracer_program "camera.position");;
    emit (SetVec3 path_tracer_program "camera.axis_u");;
    emit (SetVec3 path_tracer_program "camera.axis_v");;
    emit (SetVec3 path_tracer_program "camera.axis_w");;
    emit (DispatchCompute RENDER_WIDTH RENDER_HEIGHT 1).

(** The GL calls render_ui_pipeline makes itself (lines 514-516).  The rest
    of the function (lines 519-593) is calls into ImGui and ImPlot, whose
    code is not part of the program's sources: neither those calls nor what
    they do to the GL context appear in a trace or a state of this model. *)
Definition render_ui_pipeline : M unit :=
    emit (BindFramebuffer 0);;
    emit ClearColor;;
    emit Clear.

(** ** main *)

(** Lines 132-168: framebuffer, render target, materials, task launch. *)
Definition main_init (status : framebuffer_status) (all : list (Mesh.Material F)) : M Framebuffer :=
    fb ← allocate_gl_framebuffer status;
    t ← glGenTextures;
    modify (fun s => set_pt (mk_pt (materials_texture (pt s)) (environment_map (pt s)) t) s);;
    glBindTexture t;;
    glTexImage2D GL_RGBA32F RENDER_WIDTH RENDER_HEIGHT None;;
    glTexParameteri GL_TEXTURE_MIN_FILTER GL_NEAREST;;
    glTexParameteri GL_TEXTURE_MAG_FILTER GL_NEAREST;;
    emit (BindFramebuffer 0);;
    allocate_pt_materials all;;
    modify (set_fut Pending);;
    mret fb.

(** One iteration of the main loop; [finished] tells whether the background
    task has completed by the time the frame polls. *)
Definition frame (l : LoadEXR_out F) (fb : Framebuffer) (buffers : list GLBuffers)
      (shader_program path_tracer_program : Z) (finished : bool) : M unit :=
    (if finished then task_finishes l else mret tt);;
    render_pt_pipeline fb buffers shader_program path_tracer_program;;
    render_ui_pipeline.

(** [while (!glfwWindowShouldClose(window))]: one element of [schedule] per
    iteration made before the window closes. *)
Fixpoint main_loop (l : LoadEXR_out F) (fb : Framebuffer) (buffers : list GLBuffers)
      (shader_program path_tracer_program : Z) (schedule : list bool) : M unit :=
    match schedule with
    | [] => mret tt
    | finished :: rest =>
        frame l fb buffers shader_program path_tracer_program finished;;
        main_loop l fb buffers shader_program path_tracer_program rest
    end.

Definition main (status : framebuffer_status) (all : list (Mesh.Material F)) (l : LoadEXR_out F)
      (buffers : list GLBuffers) (shader_program path_tracer_program : Z)
      (schedule : list bool) : M unit :=
    fb ← main_init status all;
    main_loop l fb buffers shader_program path_tracer_program schedule.

End pipeline.

(** ** Reading a trace *)

Definition is_upload {F} (e : event F) : bool :=
    match e with TexImage2D _ _ _ _ => true | _ => false end.
Definition is_gen_texture {F} (e : event F) : bool :=
    match e with GenTextures _ => true | _ => false end.
Definition is_get {F} (e : event F) : bool :=
    match e with FutureGet => true | _ => false end.
Definition is_free {F} (e : event F) : bool :=
    match e with Free _ => true | _ => false end.
Definition is_draw {F} (e : event F) : bool :=
    match e with DrawElements _ => true | _ => false end.
Definition is_dispatch {F} (e : event F) : bool :=
    match e with DispatchCompute _ _ _ => true | _ => false end.
Definition is_bind_image {F} (e : event F) : bool :=
    match e with BindImageTexture _ _ => true | _ => false end.
Definition is_bind_framebuffer {F} (e : event F) : bool :=
    match e with BindFramebuffer _ => true | _ => false end.
Definition is_stderr {F} (e : event F) : bool :=
    match e with Fprintf_stderr _ => true | _ => false end.

(** [future.valid()] *)
Definition valid {F} (f : future F) : bool :=
    match f with Invalid => false | _ => true end.

(** 1 when the future was valid in [s] and is no longer in [s'], else 0. *)
Definition handoffs {F} (s s' : state F) : nat :=
    if valid (fut s) && negb (valid (fut s')) then 1%nat else 0%nat.

(** The events of the loop over [buffers], one triple per buffer. *)
Definition draw_events {F} (shader_program : Z) (buffers : list GLBuffers) : list (event F) :=
    flat_map (fun buffer =>
                [SetUint shader_program "material_index" (source_material_index buffer);
                 BindVertexArray (vao buffer);
                 DrawElements (count buffer)]) buffers.

(** A successful loader outcome, a state whose future is still pending, and
    a one-submesh scene, for evaluating frames. *)
Definition loaded_exr : LoadEXR_out Z :=
    mk_LoadEXR 0 (Some [1; 2; 3; 4; 5; 6; 7; 8]) 2 1 "".
Definition pending_state : state Z := mk_state 7 2 GL_TEXTURE0 ∅ ∅ (mk_pt 6 0 5) Pending.
Definition one_buffer : list GLBuffers := [mk_GLBuffers 1 6 0].
Definition some_framebuffer : Framebuffer := mk_Framebuffer 1 1 2 3.

(** More ways to read a trace. *)
Definition is_gen_framebuffer {F} (e : event F) : bool :=
    match e with GenFramebuffers _ => true | _ => false end.
Definition is_attach {F} (e : event F) : bool :=
    match e with FramebufferTexture2D _ _ => true | _ => false end.
Definition is_clear {F} (e : event F) : bool :=
    match e with Clear => true | _ => false end.

(** The texture bound to GL_TEXTURE_2D on a given unit. *)
Definition bound_on {F} (s : state F) (texture : Z) : option Z :=
    texture_binding s !! texture.

End Engine.

(* ================================================================== *)
(** * main.cpp: pointer input *)

Module Camera.
#[local] Open Scope Q_scope.

Definition WINDOW_WIDTH : Q := 1000.
Definition WINDOW_HEIGHT : Q := 1000.

Definition GLFW_MOUSE_BUTTON_LEFT : Z := 0.
Definition GLFW_RELEASE : Z := 0.
Definition GLFW_PRESS : Z := 1.

(** The function-local statics of [mouse_callback], the file-scope
    [dragging] flag and [app.viewport_hovered]. *)
Record pointer := mk_pointer {
    last_x : Q;
    last_y : Q;
    first_mouse : bool;
    yaw : Q;
    pitch : Q;
    dragging : bool;
    viewport_hovered : bool
  }.

(** [0.1f]: the single-precision number nearest to one tenth. *)
Definition sensitivity : Q := 13421773 # 134217728.

Definition initial_pointer : pointer :=
    mk_pointer (WINDOW_WIDTH / 2) (WINDOW_HEIGHT / 2) true 0 0 false false.

(** Lines 247-251: the two clamping tests, in order. *)
Definition clamp_pitch (pitch : Q) : Q :=
    let pitch := if Qlt_le_dec 89 pitch then 89 else pitch in
    if Qlt_le_dec pitch (-89) then -89 else pitch.

Section rounding.
(** Rounding of a double-precision result and of a value stored to a
    [float]; any two functions will do. *)
Variables (to_double to_float : Q -> Q).

(** [mouse_callback] (lines 215-273) on the accumulators; the rebuilt
    [camera.transform] is a function of the stored yaw and pitch. *)
Definition mouse_callback (s : pointer) (xpos ypos : Q) : pointer :=
    let last_x0 := if first_mouse s then xpos else last_x s in
    let last_y0 := if first_mouse s then ypos else last_y s in
    let xoffset := to_double (last_x0 - xpos) in
    let yoffset := to_double (last_y0 - ypos) in
    let xoffset := to_double (xoffset * sensitivity) in
    let yoffset := to_double (yoffset * sensitivity) in
    if dragging s
    then
      let yaw := to_float (yaw s + xoffset) in
      let pitch := to_float (pitch s + yoffset) in
      mk_pointer xpos ypos false yaw (clamp_pitch pitch)
        (dragging s) (viewport_hovered s)
    else mk_pointer xpos ypos false (yaw s) (pitch s)
           (dragging s) (viewport_hovered s).

(** [mouse_button_callback] (lines 275-287). *)
Definition mouse_button_callback (s : pointer) (button action : Z) : pointer :=
    if bool_decide (button = GLFW_MOUSE_BUTTON_LEFT) && bool_decide (action = GLFW_PRESS)
       && viewport_hovered s
    then mk_pointer (last_x s) (last_y s) (first_mouse s) (yaw s) (pitch s)
           true (viewport_hovered s)
    else if (bool_decide (button = GLFW_MOUSE_BUTTON_LEFT) && bool_decide (action = GLFW_RELEASE))
            || negb (viewport_hovered s)
    then mk_pointer (last_x s) (last_y s) (first_mouse s) (yaw s) (pitch s)
           false (viewport_hovered s)
    else s.

(** What reaches the handlers: cursor motion, button actions, and the UI
    pass storing [app.viewport_hovered] (line 582). *)
Inductive input :=
  | CursorPos (xpos ypos : Q)
  | MouseButton (button action : Z)
  | Hovered (h : bool).

Definition handle (s : pointer) (i : input) : pointer :=
    match i with
    | CursorPos xpos ypos => mouse_callback s xpos ypos
    | MouseButton button action => mouse_button_callback s button action
    | Hovered h =>
        mk_pointer (last_x s) (last_y s) (first_mouse s) (yaw s) (pitch s)
          (dragging s) h
    end.

Definition run (inputs : list input) (s : pointer) : pointer :=
    fold_left handle inputs s.

End rounding.

(** Arithmetic without rounding error. *)
Definition exact (q : Q) : Q := q.

(** Nothing when the bound is negative; otherwise a press over the viewport
    followed by one motion of [10 * (b + 1)] units to the left. *)
Definition drag_left (b : Q) : list input :=
    if Qlt_le_dec b 0 then []
    else [Hovered true; MouseButton GLFW_MOUSE_BUTTON_LEFT GLFW_PRESS;
          CursorPos 0 0; CursorPos (- (10 * (b + 1))) 0].

Definition is_left_press (i : input) : bool :=
    match i with
    | MouseButton button action =>
        bool_decide (button = GLFW_MOUSE_BUTTON_LEFT) && bool_decide (action = GLFW_PRESS)
    | _ => false
    end.

Definition is_hover_on (i : input) : bool :=
    match i with Hovered true => true | _ => false end.

End Camera.

(* ================================================================== *)
(** * main.cpp: keyboard movement (lines 172-192) *)

Module Movement.
Import glm.
#[local] Open Scope Q_scope.

(** [constexpr float speed = 0.25f] *)
Definition speed : Q := 1 # 4.

(** For each of the six keys, whether [glfwGetKey] reports GLFW_PRESS. *)
Record keys := mk_keys {
    key_W : bool;
    key_A : bool;
    key_E : bool;
    key_D : bool;
    key_S : bool;
    key_Q : bool
  }.

(** [glm::vec3 diff {0.0}] and the six conditional updates, in order.  All
    values are multiples of a quarter, so the float operations are exact. *)
Definition diff_of (k : keys) : vec3 Q :=
    let diff := mk_vec3 0 0 0 in
    let diff := if key_W k then mk_vec3 (x diff) (y diff) (z diff - speed) else diff in
    let diff := if key_A k then mk_vec3 (x diff - speed) (y diff) (z diff) else diff in
    let diff := if key_E k then mk_vec3 (x diff) (y diff + speed) (z diff) else diff in
    let diff := if key_D k then mk_vec3 (x diff + speed) (y diff) (z diff) else diff in
    let diff := if key_S k then mk_vec3 (x diff) (y diff) (z diff + speed) else diff in
    let diff := if key_Q k then mk_vec3 (x diff) (y diff - speed) (z diff) else diff in
    diff.

(** The argument of [glm::translate(camera.transform, diff)], when the call
    is made at all. *)
Definition camera_movement (viewport_focused : bool) (k : keys) : option (vec3 Q) :=
    if viewport_focused then Some (diff_of k) else None.

(** 1 for a pressed key, 0 otherwise. *)
Definition pressed (b : bool) : Q := if b then 1 else 0.

End Movement.

(* ================================================================== *)
(** * main.cpp: the frame-time window of render_ui_pipeline (lines 531-553) *)

Module FrameTimes.
#[local] Open Scope Q_scope.

(** [using frame_time = std::pair <float, float>]: (time, fps). *)
Definition frame_time : Type := (Q * Q)%type.

Section window.
(** Rounding of a single-precision result. *)
Variable to_float : Q -> Q.

(** [while (frames.size() > 0 && frames.front().first < cutoff)
       frames.erase(frames.begin());] *)
Fixpoint erase_old (cutoff : Q) (frames : list frame_time) : list frame_time :=
    match frames with
    | [] => []
    | front :: rest =>
        if Qlt_le_dec (fst front) cutoff then erase_old cutoff rest else frames
    end.

(** Lines 537-541: append the new sample, then drop old ones from the front. *)
Definition record_frame (frames : list frame_time) (time fps : Q) : list frame_time :=
    erase_old (to_float (time - 5)) (frames ++ [(time, fps)]).

(** Lines 549-553: the plotted abscissae; [frames.front()] on an empty
    vector is undefined, here [None]. *)
Definition plot_times (frames : list frame_time) : option (list Q) :=
    match frames with
    | [] => None
    | front :: _ =>
        let min_time := fst front in
        Some (map (fun frame => to_float (fst frame - min_time)) frames)
    end.

End window.

(** Times that never decrease along the list. *)
Fixpoint nondecreasing (times : list Q) : Prop :=
    match times with
    | [] => True
    | t :: rest => Forall (fun u => t <= u) rest /\ nondecreasing rest
    end.

(** Arithmetic without rounding error. *)
Definition exact (q : Q) : Q := q.

End FrameTimes.

(* ================================================================== *)
(** * Properties of the pointer handler *)

Section camera_facts.
Import Camera.
#[local] Open Scope Q_scope.
Variables (to_double to_float : Q -> Q).

Lemma clamp_pitch_range (p : Q) : -89 <= clamp_pitch p <= 89.
Proof.
  unfold clamp_pitch.
  destruct (Qlt_le_dec 89 p) as [Hhi|Hhi];
    [destruct (Qlt_le_dec 89 (-89)) | destruct (Qlt_le_dec p (-89))]; lra.
Qed.

Lemma clamp_pitch_fixed (p : Q) : -89 <= p <= 89 -> clamp_pitch p = p.
Proof.
  intros [Hlo Hhi]. unfold clamp_pitch.
  destruct (Qlt_le_dec 89 p) as [Hgt|_]; [lra|].
  destruct (Qlt_le_dec p (-89)) as [Hlt|_]; [|reflexivity].
  exfalso. lra.
Qed.

Lemma handle_pitch_range (s : pointer) (i : input) :
  -89 <= pitch s <= 89 -> -89 <= pitch (handle to_double to_float s i) <= 89.
Proof.
  intros Hs. destruct i as [xpos ypos|button action|h]; simpl.
  - unfold mouse_callback. destruct (dragging s); simpl.
    + apply clamp_pitch_range.
    + exact Hs.
  - unfold mouse_button_callback.
    repeat match goal with |- context [if ?b then _ else _] => destruct b end;
      simpl; exact Hs.
  - exact Hs.
Qed.

Lemma run_pitch_range (inputs : list input) (s : pointer) :
  -89 <= pitch s <= 89 -> -89 <= pitch (run to_double to_float inputs s) <= 89.
Proof.
  revert s. induction inputs as [|i inputs IH]; intros s Hs.
  - exact Hs.
  - simpl. apply IH, handle_pitch_range, Hs.
Qed.

Lemma drag_left_yaw (b : Q) : b < yaw (run exact exact (drag_left b) initial_pointer).
Proof.
  unfold run, drag_left. destruct (Qlt_le_dec b 0) as [Hneg|Hpos].
  - exact Hneg.
  - simpl. unfold exact, sensitivity. lra.
Qed.

(** C6. Whatever the rounding of the float and double operations: starting
    from the initial accumulators, after every prefix of every sequence of
    cursor, button and hover inputs the stored pitch lies in [-89, 89]; a
    dragging update lands in that interval whatever the pitch and the cursor
    positions were before, and stores as yaw the rounded sum of the old yaw
    and the horizontal offset, with no test on it; clamping twice is clamping
    once.  With exact arithmetic every bound on yaw is exceeded by some
    sequence of inputs. *)
Theorem pitch_clamped_yaw_free :
  (forall (inputs : list input) (n : nat),
      -89 <= pitch (run to_double to_float (take n inputs) initial_pointer) <= 89)
  /\ (forall (s : pointer) (xpos ypos : Q),
      let s' := mouse_callback to_double to_float
                  (mk_pointer (last_x s) (last_y s) (first_mouse s) (yaw s) (pitch s)
                              true (viewport_hovered s)) xpos ypos in
      -89 <= pitch s' <= 89
      /\ yaw s'
         = to_float (yaw s
             + to_double (to_double ((if first_mouse s then xpos else last_x s) - xpos)
                          * sensitivity)))
  /\ (forall p : Q, clamp_pitch (clamp_pitch p) = clamp_pitch p)
  /\ (forall b : Q, exists inputs : list input,
        b < yaw (run exact exact inputs initial_pointer)).
Proof.
  split; [|split; [|split]].
  - intros inputs n. apply run_pitch_range. simpl. lra.
  - intros s xpos ypos. simpl. split; [apply clamp_pitch_range | reflexivity].
  - intros p. apply clamp_pitch_fixed, clamp_pitch_range.
  - intros b. exists (drag_left b). apply drag_left_yaw.
Qed.

End camera_facts.

(* ================================================================== *)
(** * Properties of the render pipeline *)

Section engine_facts.
Import Engine.
Context {F : Type}.

(** Symbolic execution of straight-line monadic code. *)
Ltac run_M :=
  lazy beta iota zeta delta
    [frame main main_init render_pt_pipeline render_ui_pipeline environment_map_loading
     allocate_gl_framebuffer gen_gbuffer_texture allocate_pt_materials
     task_finishes future_valid future_ready_now future_get vector_at
     glGenFramebuffers glGenTextures glActiveTexture glBindTexture glTexImage2D
     glTexParameteri glCheckFramebufferStatus modify bound_texture
     set_next_texture set_next_framebuffer set_active_texture
     set_texture_binding set_images set_pt set_fut
     mbind M_MBind M_bind mret M_MRet M_ret
     emit emit_all get put undefined
     next_texture next_framebuffer active_texture texture_binding images pt fut
     not_complete];
  cbn [app materials_texture environment_map render_target default from_option id].

Lemma draw_loop_run (sp : Z) (buffers : list GLBuffers) (s : state F) :
  draw_loop sp buffers s = (draw_events sp buffers, Some (tt, s)).
Proof.
  induction buffers as [|b buffers IH]; [done|].
  cbn [draw_loop]. run_M. by rewrite IH.
Qed.

Lemma filter_draw_events (p : event F -> bool) (sp : Z) (buffers : list GLBuffers) :
  (forall n v, p (SetUint n "material_index" v) = false) ->
  (forall a, p (BindVertexArray a) = false) ->
  (forall c, p (DrawElements c) = false) ->
  List.filter p (draw_events sp buffers) = [].
Proof.
  intros H1 H2 H3. induction buffers as [|b buffers IH]; [done|].
  change (draw_events sp (b :: buffers))
    with ([SetUint sp "material_index" (source_material_index b);
           BindVertexArray (vao b); DrawElements (F:=F) (count b)]
          ++ draw_events sp buffers).
  rewrite List.filter_app, IH. cbn. by rewrite H1, H2, H3.
Qed.

Lemma filter_draw_events_draws (sp : Z) (buffers : list GLBuffers) :
  List.filter is_draw (draw_events (F:=F) sp buffers)
  = map (fun b => DrawElements (count b)) buffers.
Proof.
  induction buffers as [|b buffers IH]; [done|].
  change (draw_events sp (b :: buffers))
    with ([SetUint sp "material_index" (source_material_index b);
           BindVertexArray (vao b); DrawElements (F:=F) (count b)]
          ++ draw_events sp buffers).
  rewrite List.filter_app, IH. reflexivity.
Qed.

Ltac run_frame :=
  run_M; rewrite ?draw_loop_run; run_M; rewrite ?lookup_insert_eq; run_M.

Ltac filter_trace :=
  cbn [List.filter is_upload is_get is_free is_gen_texture is_dispatch is_bind_image
       is_draw is_bind_framebuffer is_stderr app];
  rewrite ?List.filter_app, ?filter_draw_events_draws,
    ?filter_draw_events by reflexivity;
  cbn [List.filter is_upload is_get is_free is_gen_texture is_dispatch is_bind_image
       is_draw is_bind_framebuffer is_stderr app length];
  rewrite ?app_nil_r; try reflexivity.

(** One iteration of the main loop on a non-empty scene: it returns, and
    what it emits and leaves behind is summarised by the state of the future
    before and after. *)
Lemma frame_run (l : LoadEXR_out F) (fb : Framebuffer) (buffers : list GLBuffers)
    (sp pp : Z) (finished : bool) (s : state F) (b0 : GLBuffers) :
  buffers !! 0%nat = Some b0 ->
  exists t s',
    frame l fb buffers sp pp finished s = (t, Some (tt, s'))
    /\ length (List.filter is_upload t) = handoffs s s'
    /\ length (List.filter is_get t) = handoffs s s'
    /\ length (List.filter is_free t) = handoffs s s'
    /\ length (List.filter is_gen_texture t) = handoffs s s'
    /\ (valid (fut s') = true -> valid (fut s) = true)
    /\ List.filter is_dispatch t = [DispatchCompute RENDER_WIDTH RENDER_HEIGHT 1]
    /\ List.filter is_bind_image t = [BindImageTexture 0 (render_target (pt s))]
    /\ List.filter is_draw t = map (fun b => DrawElements (count b)) buffers
    /\ (forall e, In e (List.filter is_bind_framebuffer t) ->
          e = BindFramebuffer (framebuffer fb) \/ e = BindFramebuffer 0)
    /\ render_target (pt s') = render_target (pt s)
    /\ next_texture s <= next_texture s'
    /\ (forall x, x < next_texture s -> images s' !! x = images s !! x).
Proof.
  intros Hb. destruct s as [nt nf act tb im p f].
  assert (Hbind : forall (t : list (event F)) e,
             In e (BindFramebuffer (framebuffer fb) :: t) ->
             (forall e', In e' t -> e' = BindFramebuffer 0) ->
             e = BindFramebuffer (framebuffer fb) \/ e = BindFramebuffer 0).
  { intros t e [<-|Hin] Ht; [by left | right; by apply Ht]. }
  destruct f as [|[[data w] h]|], finished; unfold frame;
    try (unfold task_finishes, exr_loader; cbn; case_bool_decide);
    unfold render_pt_pipeline, vector_at; rewrite Hb; run_frame;
    (eexists _, _; split; [reflexivity|]);
    unfold handoffs; cbn [fut pt next_texture images valid andb negb render_target];
    repeat split; try filter_trace; try done; try lia;
    try (by intros e He; revert He; filter_trace; intros He;
         eapply Hbind; [exact He|]; intros e' [<-|[]]; reflexivity);
    try (by intros x Hx; rewrite lookup_insert_ne by lia).
Qed.

Lemma main_loop_cons (l : LoadEXR_out F) (fb : Framebuffer) (buffers : list GLBuffers)
    (sp pp : Z) (finished : bool) (rest : list bool) (s s1 s2 : state F)
    (t1 t2 : list (event F)) :
  frame l fb buffers sp pp finished s = (t1, Some (tt, s1)) ->
  main_loop l fb buffers sp pp rest s1 = (t2, Some (tt, s2)) ->
  main_loop l fb buffers sp pp (finished :: rest) s = (t1 ++ t2, Some (tt, s2)).
Proof.
  intros H1 H2. cbn [main_loop]. unfold mbind, M_MBind, M_bind.
  by rewrite H1, H2.
Qed.

Lemma handoffs_trans (s s1 s2 : state F) :
  (valid (fut s1) = true -> valid (fut s) = true) ->
  (valid (fut s2) = true -> valid (fut s1) = true) ->
  (handoffs s s1 + handoffs s1 s2 = handoffs s s2)%nat.
Proof.
  unfold handoffs.
  destruct (valid (fut s)), (valid (fut s1)), (valid (fut s2)); cbn; intros H1 H2;
    try reflexivity; try (by discriminate H1); by discriminate H2.
Qed.

(** The main loop on a non-empty scene runs every scheduled frame. *)
Lemma main_loop_run (l : LoadEXR_out F) (fb : Framebuffer) (buffers : list GLBuffers)
    (sp pp : Z) (schedule : list bool) (s : state F) (b0 : GLBuffers) :
  buffers !! 0%nat = Some b0 ->
  exists t s',
    main_loop l fb buffers sp pp schedule s = (t, Some (tt, s'))
    /\ length (List.filter is_upload t) = handoffs s s'
    /\ length (List.filter is_get t) = handoffs s s'
    /\ length (List.filter is_free t) = handoffs s s'
    /\ length (List.filter is_gen_texture t) = handoffs s s'
    /\ (valid (fut s') = true -> valid (fut s) = true)
    /\ List.filter is_dispatch t
       = repeat (DispatchCompute RENDER_WIDTH RENDER_HEIGHT 1) (length schedule)
    /\ List.filter is_bind_image t
       = repeat (BindImageTexture 0 (render_target (pt s))) (length schedule)
    /\ (forall e, In e (List.filter is_bind_framebuffer t) ->
          e = BindFramebuffer (framebuffer fb) \/ e = BindFramebuffer 0)
    /\ render_target (pt s') = render_target (pt s)
    /\ next_texture s <= next_texture s'
    /\ (forall x, x < next_texture s -> images s' !! x = images s !! x).
Proof.
  intros Hb. revert s. induction schedule as [|finished rest IH]; intros s.
  - exists [], s. unfold handoffs. destruct (valid (fut s)); cbn; repeat split; try done.
  - destruct (frame_run l fb buffers sp pp finished s b0 Hb)
      as (t1 & s1 & Hrun1 & Hu1 & Hg1 & Hf1 & Hn1 & Hv1 & Hd1 & Hi1 & Hdr1 & Hfb1 & Hrt1 & Hnt1 & Him1).
    destruct (IH s1)
      as (t2 & s2 & Hrun2 & Hu2 & Hg2 & Hf2 & Hn2 & Hv2 & Hd2 & Hi2 & Hfb2 & Hrt2 & Hnt2 & Him2).
    exists (t1 ++ t2), s2.
    split; [by eapply main_loop_cons|].
    rewrite !List.filter_app, !length_app.
    rewrite Hu1, Hu2, Hg1, Hg2, Hf1, Hf2, Hn1, Hn2, Hd1, Hd2, Hi1, Hi2, Hrt1.
    rewrite (handoffs_trans s s1 s2 Hv1 Hv2).
    repeat split; try done.
    + tauto.
    + intros e He. apply in_app_or in He as [He|He]; [by apply Hfb1 | by apply Hfb2].
    + congruence.
    + lia.
    + intros x Hx. rewrite Him2 by lia. by apply Him1.
Qed.

Lemma main_loop_app (l : LoadEXR_out F) (fb : Framebuffer) (buffers : list GLBuffers)
    (sp pp : Z) (b0 : GLBuffers) (sched1 sched2 : list bool) (s s1 s2 : state F)
    (t1 t2 : list (event F)) :
  buffers !! 0%nat = Some b0 ->
  main_loop l fb buffers sp pp sched1 s = (t1, Some (tt, s1)) ->
  main_loop l fb buffers sp pp sched2 s1 = (t2, Some (tt, s2)) ->
  main_loop l fb buffers sp pp (sched1 ++ sched2) s = (t1 ++ t2, Some (tt, s2)).
Proof.
  intros Hb. revert s t1. induction sched1 as [|finished rest IH]; intros s t1 H1 H2.
  - cbn in H1. injection H1 as <- <-. exact H2.
  - destruct (frame_run l fb buffers sp pp finished s b0 Hb) as (tf & sf & Hf & _).
    destruct (main_loop_run l fb buffers sp pp rest sf b0 Hb) as (tr & sr & Hr & _).
    rewrite (main_loop_cons _ _ _ _ _ _ _ _ _ _ _ _ Hf Hr) in H1.
    injection H1 as <- <-.
    rewrite <- app_assoc. cbn [app].
    eapply main_loop_cons; [exact Hf|]. by apply IH.
Qed.

(** C2. On a non-empty scene, from any state, the main loop runs every frame
    of any schedule of task completions; over the whole run the environment
    buffer is taken from the future, uploaded and freed the same number of
    times, and that number is at most one; and once a frame of an initial
    part of the run has taken it, the future is invalid and no later frame
    takes, uploads, frees or creates a texture again. *)
Theorem environment_consumed_at_most_once
    (l : LoadEXR_out F) (fb : Framebuffer) (buffers : list GLBuffers) (sp pp : Z)
    (b0 : GLBuffers) (sched1 sched2 : list bool) (s : state F) :
  buffers !! 0%nat = Some b0 ->
  exists t1 s1 t2 s2,
    main_loop l fb buffers sp pp sched1 s = (t1, Some (tt, s1))
    /\ main_loop l fb buffers sp pp sched2 s1 = (t2, Some (tt, s2))
    /\ main_loop l fb buffers sp pp (sched1 ++ sched2) s = (t1 ++ t2, Some (tt, s2))
    /\ (length (List.filter is_get (t1 ++ t2)) <= 1)%nat
    /\ length (List.filter is_upload (t1 ++ t2)) = length (List.filter is_get (t1 ++ t2))
    /\ length (List.filter is_free (t1 ++ t2)) = length (List.filter is_get (t1 ++ t2))
    /\ (List.filter is_get t1 <> [] ->
        fut s1 = Invalid /\ fut s2 = Invalid
        /\ List.filter is_get t2 = [] /\ List.filter is_upload t2 = []
        /\ List.filter is_free t2 = [] /\ List.filter is_gen_texture t2 = []).
Proof.
  intros Hb.
  destruct (main_loop_run l fb buffers sp pp sched1 s b0 Hb)
    as (t1 & s1 & Hrun1 & Hu1 & Hg1 & Hf1 & Hn1 & Hv1 & _).
  destruct (main_loop_run l fb buffers sp pp sched2 s1 b0 Hb)
    as (t2 & s2 & Hrun2 & Hu2 & Hg2 & Hf2 & Hn2 & Hv2 & _).
  exists t1, s1, t2, s2.
  split; [exact Hrun1|]. split; [exact Hrun2|].
  split; [by eapply main_loop_app|].
  rewrite !List.filter_app, !length_app, Hu1, Hu2, Hg1, Hg2, Hf1, Hf2.
  rewrite (handoffs_trans s s1 s2 Hv1 Hv2).
  split; [unfold handoffs; destruct (_ && _); lia|].
  split; [reflexivity|]. split; [reflexivity|].
  intros Hget.
  assert (Hone : handoffs s s1 <> 0%nat).
  { rewrite <- Hg1. by destruct (List.filter is_get t1). }
  assert (Hinv1 : valid (fut s1) = false).
  { unfold handoffs in Hone. destruct (valid (fut s)), (valid (fut s1)); cbn in Hone; done. }
  assert (Hinv2 : valid (fut s2) = false).
  { destruct (valid (fut s2)); [|done]. by rewrite Hv2 in Hinv1. }
  assert (Hzero : handoffs s1 s2 = 0%nat).
  { unfold handoffs. by rewrite Hinv1. }
  rewrite Hzero in Hu2, Hg2, Hf2, Hn2.
  repeat split; try (by apply length_zero_iff_nil).
  - by destruct (fut s1).
  - by destruct (fut s2).
Qed.

(** Set-up (lines 132-168) always returns, whatever the framebuffer status:
    the render target is a fresh texture of the render resolution, and the
    future is pending. *)
Lemma main_init_run (fone : F) (status : framebuffer_status) (all : list (Mesh.Material F)) (s : state F) :
  exists t fb s',
    main_init fone status all s = (t, Some (fb, s'))
    /\ List.filter is_dispatch t = []
    /\ List.filter is_bind_image t = []
    /\ images s' !! render_target (pt s') = Some (RENDER_WIDTH, RENDER_HEIGHT)
    /\ render_target (pt s') < next_texture s'
    /\ fut s' = Pending.
Proof.
  destruct s as [nt nf act tb im p f].
  destruct status; run_frame;
    (eexists _, _, _; split; [reflexivity|]); cbn;
    (repeat split; [|lia]);
    rewrite lookup_insert_ne by lia; by rewrite lookup_insert_eq.
Qed.

(** C7. On a non-empty scene the program, started in any GL state and for
    any framebuffer status, material table, loader outcome and schedule, runs
    set-up and every frame; it issues exactly one dispatch per frame, each of
    RENDER_WIDTH x RENDER_HEIGHT x 1 = 1000 x 1000 x 1 groups, each preceded
    by binding the render target as image 0; and the render target's image
    has exactly that width and height. *)
Theorem dispatch_grid_is_render_resolution
    (fone : F) (status : framebuffer_status) (all : list (Mesh.Material F))
    (l : LoadEXR_out F)
    (buffers : list GLBuffers) (sp pp : Z) (b0 : GLBuffers)
    (schedule : list bool) (s : state F) :
  buffers !! 0%nat = Some b0 ->
  exists t s',
    main fone status all l buffers sp pp schedule s = (t, Some (tt, s'))
    /\ List.filter is_dispatch t = repeat (DispatchCompute 1000 1000 1) (length schedule)
    /\ List.filter is_bind_image t
       = repeat (BindImageTexture 0 (render_target (pt s'))) (length schedule)
    /\ images s' !! render_target (pt s') = Some (1000, 1000).
Proof.
  intros Hb.
  destruct (main_init_run fone status all s)
    as (t0 & fb & s0 & Hinit & Hd0 & Hi0 & Him0 & Hlt0 & _).
  destruct (main_loop_run l fb buffers sp pp schedule s0 b0 Hb)
    as (t & s' & Hrun & _ & _ & _ & _ & _ & Hd & Hi & _ & Hrt & _ & Him).
  exists (t0 ++ t), s'. split.
  - unfold main, mbind, M_MBind, M_bind. by rewrite Hinit, Hrun.
  - rewrite !List.filter_app, Hd0, Hi0, Hd, Hi, Hrt. cbn [app].
    repeat split. by rewrite Him.
Qed.

(** C5 (evaluation). With no GL buffers the frame reads [buffers[0]] before
    the draw loop: the run is undefined after the three matrix uniforms, and
    it is so from every state and for every framebuffer and program. *)
Theorem empty_buffers_frame_undefined (fb : Framebuffer) (sp pp : Z) (s : state F) :
  render_pt_pipeline fb [] sp pp s
  = ([BindFramebuffer (framebuffer fb); ClearColor; Clear; UseProgram sp;
      SetMat4 sp "model"; SetMat4 sp "view"; SetMat4 sp "projection"], None).
Proof. reflexivity. Qed.

(** C1 (evaluation). The loader's outcome has a non-zero return code, so the
    task logs the error and returns the sentinel (null, 0, 0).  The frame
    that finds the future ready takes the sentinel and, with no test on it,
    generates texture [nt], stores it in [pt.environment_map], defines its
    image as 0 x 0 from the null pointer, frees the null pointer, and goes on
    to dispatch. *)
Theorem failed_decode_frame_creates_texture
    (fb : Framebuffer) (b : GLBuffers) (sp pp nt nf act : Z) (tb : gmap Z Z)
    (im : gmap Z (Z * Z)) (p : PathTracer) (d : buffer F) (w h : Z) (err : string) :
  frame (mk_LoadEXR (-1) d w h err) fb [b] sp pp true
        (mk_state nt nf act tb im p Pending)
  = ([Logf eLogError "Error loading EXR: %s";
      BindFramebuffer (framebuffer fb); ClearColor; Clear; UseProgram sp;
      SetMat4 sp "model"; SetMat4 sp "view"; SetMat4 sp "projection";
      BindVertexArray (vao b);
      SetUint sp "material_index" (source_material_index b);
      BindVertexArray (vao b); DrawElements (count b);
      UseProgram pp;
      ActiveTexture GL_TEXTURE1; BindTexture (g_position fb);
      ActiveTexture GL_TEXTURE2; BindTexture (g_normal fb);
      ActiveTexture GL_TEXTURE4; BindTexture (g_material_index fb);
      ActiveTexture GL_TEXTURE3; BindTexture (materials_texture p);
      FutureGet;
      Printf "Creating environment map texture\n" [];
      GenTextures nt; BindTexture nt;
      TexImage2D GL_RGBA32F 0 0 None;
      TexParameteri GL_TEXTURE_MIN_FILTER GL_LINEAR;
      TexParameteri GL_TEXTURE_MAG_FILTER GL_LINEAR;
      Free None; BindTexture 0;
      ActiveTexture GL_TEXTURE5; BindTexture 0;
      BindImageTexture 0 (render_target p);
      SetVec3 pp "camera.position"; SetVec3 pp "camera.axis_u";
      SetVec3 pp "camera.axis_v"; SetVec3 pp "camera.axis_w";
      DispatchCompute RENDER_WIDTH RENDER_HEIGHT 1;
      BindFramebuffer 0; ClearColor; Clear],
     Some (tt,
           mk_state (nt + 1) nf GL_TEXTURE5
             (<[GL_TEXTURE5 := 0]>
                (<[GL_TEXTURE3 := 0]>
                   (<[GL_TEXTURE3 := nt]>
                      (<[GL_TEXTURE3 := materials_texture p]>
                         (<[GL_TEXTURE4 := g_material_index fb]>
                            (<[GL_TEXTURE2 := g_normal fb]>
                               (<[GL_TEXTURE1 := g_position fb]> tb)))))))
             (<[nt := (0, 0)]> im)
             (mk_pt (materials_texture p) nt (render_target p))
             Invalid)).
Proof.
  unfold frame, task_finishes, exr_loader, render_pt_pipeline, vector_at.
  rewrite bool_decide_true by done.
  change ([b] !! 0%nat) with (Some b).
  run_frame. reflexivity.
Qed.

(** A complete framebuffer is returned with the names just generated. *)
Lemma complete_framebuffer_returned (s : state F) :
  exists t s',
    allocate_gl_framebuffer GL_FRAMEBUFFER_COMPLETE s
    = (t, Some (mk_Framebuffer (next_framebuffer s) (next_texture s)
                  (next_texture s + 1) (next_texture s + 1 + 1), s'))
    /\ List.filter is_stderr t = [].
Proof.
  destruct s as [nt nf act tb im p f]. run_frame.
  eexists _, _. split; reflexivity.
Qed.

(** Every frame of the loop draws the whole buffer list, whatever the
    framebuffer handle. *)
Lemma main_loop_draws (l : LoadEXR_out F) (fb : Framebuffer) (buffers : list GLBuffers)
    (sp pp : Z) (schedule : list bool) (s : state F) (b0 : GLBuffers) :
  buffers !! 0%nat = Some b0 ->
  exists t s',
    main_loop l fb buffers sp pp schedule s = (t, Some (tt, s'))
    /\ List.filter is_draw t
       = concat (map (fun _ => map (fun b => DrawElements (count b)) buffers) schedule).
Proof.
  intros Hb. revert s. induction schedule as [|finished rest IH]; intros s.
  - by exists [], s.
  - destruct (frame_run l fb buffers sp pp finished s b0 Hb)
      as (t1 & s1 & Hrun1 & _ & _ & _ & _ & _ & _ & _ & Hdr1 & _).
    destruct (IH s1) as (t2 & s2 & Hrun2 & Hdr2).
    exists (t1 ++ t2), s2. split; [by eapply main_loop_cons|].
    by rewrite List.filter_app, Hdr1, Hdr2.
Qed.

(** Set-up when the status check answers anything but
    GL_FRAMEBUFFER_COMPLETE: it returns the all-zero handle, and the only
    thing written to stderr is the message of allocate_gl_framebuffer. *)
Lemma main_init_incomplete (fone : F) (status : framebuffer_status)
    (all : list (Mesh.Material F)) (s : state F) :
  status <> GL_FRAMEBUFFER_COMPLETE ->
  exists t s',
    main_init fone status all s = (t, Some (Framebuffer_empty, s'))
    /\ List.filter is_stderr t = [Fprintf_stderr "Framebuffer is not complete!\n"].
Proof.
  intros Hstatus. destruct s as [nt nf act tb im p f].
  destruct status; [done| ..]; run_frame;
    (eexists _, _; split; reflexivity).
Qed.

(** C8 (evaluation).  When the status check answers anything but
    GL_FRAMEBUFFER_COMPLETE, allocate_gl_framebuffer writes "Framebuffer is
    not complete!" to stderr as the last thing it does and returns the
    all-zero handle instead of the names it generated.  main does not test
    the handle: set-up completes and every scheduled frame runs with it, each
    drawing all buffers and dispatching the compute stage, with framebuffer 0
    as the only framebuffer bound. *)
Theorem incomplete_framebuffer_frames_still_run
    (fone : F) (status : framebuffer_status) (all : list (Mesh.Material F))
    (l : LoadEXR_out F) (buffers : list GLBuffers) (sp pp : Z) (b0 : GLBuffers)
    (schedule : list bool) (s : state F) :
  status <> GL_FRAMEBUFFER_COMPLETE ->
  buffers !! 0%nat = Some b0 ->
  (exists ta sa,
     allocate_gl_framebuffer status s = (ta, Some (Framebuffer_empty, sa))
     /\ In (CheckFramebufferStatus status) ta
     /\ last ta = Some (Fprintf_stderr "Framebuffer is not complete!\n")
     /\ Framebuffer_empty = mk_Framebuffer 0 0 0 0)
  /\ exists t0 s0 t s',
       main_init fone status all s = (t0, Some (Framebuffer_empty, s0))
       /\ List.filter is_stderr t0 = [Fprintf_stderr "Framebuffer is not complete!\n"]
       /\ main_loop l Framebuffer_empty buffers sp pp schedule s0 = (t, Some (tt, s'))
       /\ main fone status all l buffers sp pp schedule s = (t0 ++ t, Some (tt, s'))
       /\ List.filter is_dispatch t
          = repeat (DispatchCompute RENDER_WIDTH RENDER_HEIGHT 1) (length schedule)
       /\ List.filter is_draw t
          = concat (map (fun _ => map (fun b => DrawElements (count b)) buffers) schedule)
       /\ (forall e, In e (List.filter is_bind_framebuffer t) -> e = BindFramebuffer 0).
Proof.
  intros Hstatus Hb. split.
  - destruct s as [nt nf act tb im p f].
    destruct status; [done| ..]; run_frame;
      (eexists _, _; split; [reflexivity|]);
      (split; [cbn; tauto|]); split; reflexivity.
  - destruct (main_init_incomplete fone status all s Hstatus) as (t0 & s0 & Hinit & Herr).
    destruct (main_loop_run l Framebuffer_empty buffers sp pp schedule s0 b0 Hb)
      as (t & s' & Hrun & _ & _ & _ & _ & _ & Hd & _ & Hfb & _).
    destruct (main_loop_draws l Framebuffer_empty buffers sp pp schedule s0 b0 Hb)
      as (t' & s'' & Hrun' & Hdr).
    rewrite Hrun in Hrun'. injection Hrun' as <- <-.
    exists t0, s0, t, s'. split; [exact Hinit|]. split; [exact Herr|].
    split; [exact Hrun|]. split.
    { unfold main, mbind, M_MBind, M_bind. by rewrite Hinit, Hrun. }
    split; [exact Hd|]. split; [exact Hdr|].
    intros e He. by destruct (Hfb e He).
Qed.

(** ** The material packer *)

Lemma compress_all_fold (fone : F) (all : list (Mesh.Material F))
    (acc : list (CompressedMaterial F)) :
  fold_left (fun materials material => materials ++ [compress fone material]) all acc
  = acc ++ map (compress fone) all.
Proof.
  revert acc. induction all as [|m all IH]; intros acc; cbn.
  - by rewrite app_nil_r.
  - by rewrite IH, <- app_assoc.
Qed.

Lemma compress_all_map (fone : F) (all : list (Mesh.Material F)) :
  compress_all fone all = map (compress fone) all.
Proof. unfold compress_all. by rewrite compress_all_fold. Qed.

(** Texel [4 * i + k] of the packed buffer is the [k]-th vec4 of record [i]. *)
Lemma texel_lookup (materials : list (CompressedMaterial F)) (i k : nat)
    (m : CompressedMaterial F) :
  materials !! i = Some m -> (k < 4)%nat ->
  concat (map CompressedMaterial_texels materials) !! (4 * i + k)%nat
  = CompressedMaterial_texels m !! k.
Proof.
  revert i. induction materials as [|m0 materials IH]; intros i Hi Hk; [done|].
  destruct i as [|i].
  - cbn in Hi. injection Hi as ->. cbn [map concat].
    rewrite lookup_app_l by (cbn; lia). reflexivity.
  - cbn in Hi. cbn [map concat].
    rewrite lookup_app_r by (cbn; lia).
    replace (4 * S i + k - length (CompressedMaterial_texels m0))%nat
      with (4 * i + k)%nat by (cbn; lia).
    by apply IH.
Qed.

Lemma texels_length (materials : list (CompressedMaterial F)) :
  length (concat (map CompressedMaterial_texels materials)) = (4 * length materials)%nat.
Proof.
  induction materials as [|m materials IH]; [done|].
  cbn [map concat]. rewrite length_app, IH. cbn. lia.
Qed.

Lemma floats_length (texels : list (glm.vec4 F)) :
  length (concat (map glm.vec4_floats texels)) = (4 * length texels)%nat.
Proof.
  induction texels as [|v texels IH]; [done|].
  cbn [map concat]. rewrite length_app, IH. cbn. lia.
Qed.

Lemma to_GLsizei_small (n : Z) :
  0 <= n < 2 ^ 31 -> to_GLsizei (to_size_t n) = n.
Proof.
  intros Hn. unfold to_GLsizei, to_size_t.
  rewrite (Z.mod_small n (2 ^ 64)) by lia.
  rewrite (Z.mod_small n (2 ^ 32)) by lia.
  rewrite bool_decide_true by lia. reflexivity.
Qed.

(** C4. For a material table whose packed width [4 * N] fits the GLsizei
    parameter, allocate_pt_materials returns after a single upload: a
    GL_RGBA32F image of width [4 * N] and height 1, stored as the image of the
    texture it records in [pt.materials_texture].  The uploaded data are [N]
    records, [4 * N] texels, [16 * N] floats; record [i] is input material [i]
    compressed, and its four texels are, in order, the material's diffuse,
    specular and emission triples each followed by 1.0, and its roughness in
    all four components. *)
Theorem materials_packed_in_order
    (fone : F) (all : list (Mesh.Material F)) (s : state F) :
  stride * Z.of_nat (length all) < 2 ^ 31 ->
  let materials := compress_all fone all in
  let texels := concat (map CompressedMaterial_texels materials) in
  exists t s',
    allocate_pt_materials fone all s = (t, Some (tt, s'))
    /\ List.filter is_upload t
       = [TexImage2D GL_RGBA32F (4 * Z.of_nat (length all)) 1 (Some (materials_data materials))]
    /\ images s' !! materials_texture (pt s') = Some (4 * Z.of_nat (length all), 1)
    /\ length materials = length all
    /\ length texels = (4 * length all)%nat
    /\ length (materials_data materials) = (16 * length all)%nat
    /\ forall (i : nat) (m : Mesh.Material F),
         all !! i = Some m ->
         materials !! i = Some (compress fone m)
         /\ texels !! (4 * i + 0)%nat = Some (glm.vec4_of_vec3 (Mesh.diffuse m) fone)
         /\ texels !! (4 * i + 1)%nat = Some (glm.vec4_of_vec3 (Mesh.specular m) fone)
         /\ texels !! (4 * i + 2)%nat = Some (glm.vec4_of_vec3 (Mesh.emission m) fone)
         /\ texels !! (4 * i + 3)%nat = Some (glm.vec4_splat (Mesh.roughness m)).
Proof.
  intros Hfit materials texels.
  assert (Hlen : length materials = length all).
  { unfold materials. by rewrite compress_all_map, length_map. }
  destruct s as [nt nf act tb im p f]. run_frame.
  fold materials. rewrite Hlen.
  rewrite to_GLsizei_small by (unfold stride in *; lia).
  eexists _, _. split; [reflexivity|].
  split; [reflexivity|].
  split; [cbn; by rewrite lookup_insert_eq|].
  split; [reflexivity|].
  split; [unfold texels; rewrite texels_length; lia|].
  split.
  { unfold materials_data. fold texels. rewrite floats_length.
    unfold texels. rewrite texels_length. lia. }
  intros i m Hi.
  assert (Hm : materials !! i = Some (compress fone m)).
  { unfold materials. rewrite compress_all_map, list_lookup_fmap, Hi. reflexivity. }
  split; [exact Hm|].
  unfold texels.
  rewrite !(texel_lookup materials i _ _ Hm) by lia.
  repeat split.
Qed.

End engine_facts.

(* ================================================================== *)
(** * Properties of load_model *)

Section mesh_facts.
Import Mesh.
Context {F : Type}.
Variable feq : F -> F -> bool.
Variables (fzero fone : F) (fsub : F -> F -> F).
Variable glm_cross : glm.vec3 F -> glm.vec3 F -> glm.vec3 F.
Variable glm_normalize : glm.vec3 F -> glm.vec3 F.
Variable default_material : Material F.

Lemma to_uint32_range (n : nat) :
  0 <= to_uint32 (Z.of_nat n) < Z.of_nat (S n).
Proof.
  unfold to_uint32.
  pose proof (Z.mod_pos_bound (Z.of_nat n) (2 ^ 32) ltac:(lia)).
  pose proof (Z.mod_le (Z.of_nat n) (2 ^ 32) ltac:(lia) ltac:(lia)).
  lia.
Qed.

(** ** Look-ups in [unique_vertices] *)

Lemma find_vertex_Some (m : vertex_map (F:=F)) (vertex : Vertex F) (id : Z) :
  find_vertex feq m vertex = Some id ->
  exists key, In (key, id) m /\ Vertex_eq feq vertex key = true.
Proof.
  unfold find_vertex. intros Hfind.
  destruct (List.find _ m) as [[key id']|] eqn:Hf; [|done].
  cbn in Hfind. injection Hfind as ->.
  apply List.find_some in Hf as [Hin Heq]. by exists key.
Qed.

Lemma find_vertex_None (m : vertex_map (F:=F)) (vertex : Vertex F) :
  find_vertex feq m vertex = None ->
  forall key, In key (map fst m) -> Vertex_eq feq vertex key = false.
Proof.
  unfold find_vertex. intros Hfind key Hin.
  destruct (List.find _ m) as [e|] eqn:Hf; [done|].
  apply in_map_iff in Hin as ([k id] & <- & Hin).
  by apply (List.find_none _ _ Hf (k, id)).
Qed.

Lemma Vertex_eq_sym (u v : Vertex F) :
  (forall a b, feq a b = feq b a) -> Vertex_eq feq u v = Vertex_eq feq v u.
Proof.
  intros Hsym. unfold Vertex_eq, vec3_eq, vec2_eq.
  rewrite (Hsym (glm.x (position u))), (Hsym (glm.y (position u))),
    (Hsym (glm.z (position u))), (Hsym (glm.x (normal u))), (Hsym (glm.y (normal u))),
    (Hsym (glm.z (normal u))), (Hsym (glm.x2 (uv u))), (Hsym (glm.y2 (uv u))).
  reflexivity.
Qed.

Lemma Vertex_eq_trans (u v w : Vertex F) :
  (forall a b c, feq a b = true -> feq b c = true -> feq a c = true) ->
  Vertex_eq feq u v = true -> Vertex_eq feq v w = true -> Vertex_eq feq u w = true.
Proof.
  intros Htrans. unfold Vertex_eq, vec3_eq, vec2_eq.
  rewrite !andb_true_iff.
  intros [[[[? ?] ?] [[? ?] ?]] [? ?]] [[[[? ?] ?] [[? ?] ?]] [? ?]].
  split_and!; by eapply Htrans.
Qed.

(** With a symmetric comparison, "not equal to an earlier one" is "no two
    are equal". *)
Lemma later_differs_stored_once (vs : list (Vertex F)) :
  (forall a b, feq a b = feq b a) ->
  later_differs feq vs -> stored_once feq vs.
Proof.
  intros Hsym Hld i j a b Ha Hb Hij.
  destruct (Nat.lt_total i j) as [Hlt|[Heq|Hgt]]; [|done|].
  - rewrite Vertex_eq_sym by done. by eapply Hld.
  - by eapply Hld.
Qed.

(** The order in which the container keeps its entries does not matter to
    a look-up: when the comparison is symmetric and transitive and no key
    compares equal to an earlier one, every entry whose key compares equal to
    the vertex holds the id that the look-up returns. *)
Lemma find_vertex_any_entry (m : vertex_map (F:=F)) (vertex key : Vertex F) (id : Z) :
  (forall a b, feq a b = feq b a) ->
  (forall a b c, feq a b = true -> feq b c = true -> feq a c = true) ->
  later_differs feq (map fst m) ->
  In (key, id) m -> Vertex_eq feq vertex key = true ->
  find_vertex feq m vertex = Some id.
Proof.
  intros Hsym Htrans. unfold find_vertex.
  induction m as [|[k0 id0] m IH]; intros Hld Hin Heq; [done|].
  cbn [List.find fst].
  assert (Htail : later_differs feq (map fst m)).
  { intros i j a b Ha Hb Hij. apply (Hld (S i) (S j) a b); [done | done | lia]. }
  destruct (Vertex_eq feq vertex k0) eqn:H0.
  - destruct Hin as [Hin|Hin]; [by injection Hin as _ -> |].
    exfalso.
    assert (Hpos : exists j, map fst m !! j = Some key).
    { apply list_elem_of_lookup_1, list_elem_of_In, in_map_iff. by exists (key, id). }
    destruct Hpos as [j Hj].
    assert (Hne : Vertex_eq feq key k0 = false).
    { apply (Hld 0%nat (S j) k0 key); [done | done | lia]. }
    rewrite (Vertex_eq_trans key vertex k0 Htrans) in Hne; [done | | done].
    by rewrite Vertex_eq_sym.
  - destruct Hin as [Hin|Hin]; [|by apply IH].
    injection Hin as -> ->. congruence.
Qed.

(** ** The invariant of the four containers *)

Lemma submesh_empty_inv : submesh_inv feq (submesh_empty (F:=F)).
Proof.
  unfold submesh_inv, later_differs, in_range; cbn. split_and!.
  - intros i j a b Ha. by rewrite lookup_nil in Ha.
  - done.
  - constructor.
  - intros k id Hk. by rewrite lookup_empty in Hk.
  - constructor.
Qed.

(** Emitting an id that is in range keeps the invariant. *)
Lemma push_index_inv (s : submesh (F:=F)) (id : Z) (im : gmap index_t Z) :
  submesh_inv feq s -> in_range s id ->
  (forall k id', im !! k = Some id' -> in_range s id') ->
  submesh_inv feq (mk_submesh (sm_vertices s) (sm_indices s ++ [id]) (unique_vertices s) im).
Proof.
  intros (Hnd & Hall & Huv & Him & Hidx) Hid Him'.
  unfold submesh_inv, in_range in *; cbn. split_and!; try done.
  apply Forall_app. split; [done|]. by constructor.
Qed.

Lemma add_vertex_inv (index : index_t) (vertex : Vertex F) (s : submesh (F:=F)) :
  submesh_inv feq s -> submesh_inv feq (add_vertex feq index vertex s).
Proof.
  intros Hinv. unfold add_vertex.
  destruct (find_vertex feq (unique_vertices s) vertex) as [id|] eqn:Hu.
  - pose proof Hinv as (_ & _ & Huv & Him & _).
    apply find_vertex_Some in Hu as (key & Hin & _).
    assert (Hid : in_range s id).
    { rewrite Forall_forall in Huv. apply (Huv (key, id)). by apply list_elem_of_In. }
    apply push_index_inv; [done | done |].
    intros k id' Hk. apply lookup_insert_Some in Hk as [[_ <-]|[_ Hk]]; [done|].
    by eapply Him.
  - destruct Hinv as (Hnd & Hkeys & Huv & Him & Hidx).
    pose proof (to_uint32_range (length (sm_vertices s))) as Hid.
    assert (Hgrow : forall id, in_range s id ->
              0 <= id < Z.of_nat (length (sm_vertices s ++ [vertex]))).
    { unfold in_range. intros id Hr. rewrite length_app. cbn. lia. }
    assert (Hnew : 0 <= to_uint32 (Z.of_nat (length (sm_vertices s)))
                   < Z.of_nat (length (sm_vertices s ++ [vertex]))).
    { rewrite length_app. cbn. lia. }
    unfold submesh_inv, in_range; cbn. split_and!.
    + intros i j a b Ha Hb Hij.
      pose proof (lookup_lt_Some _ _ _ Hb) as Hj. rewrite length_app in Hj. cbn in Hj.
      rewrite lookup_app_l in Ha by lia.
      destruct (decide (j < length (sm_vertices s))%nat) as [Hold|Hlast].
      * rewrite lookup_app_l in Hb by lia. by eapply Hnd.
      * rewrite lookup_app_r in Hb by lia.
        replace (j - length (sm_vertices s))%nat with 0%nat in Hb by lia.
        cbn in Hb. injection Hb as <-.
        eapply find_vertex_None; [exact Hu|].
        rewrite Hkeys. apply list_elem_of_In. by eapply list_elem_of_lookup_2.
    + by rewrite map_app, Hkeys.
    + apply Forall_app. split; [|by constructor].
      eapply Forall_impl; [exact Huv|]. intros e He. by apply Hgrow.
    + intros k id Hk. apply lookup_insert_Some in Hk as [[_ <-]|[_ Hk]]; [done|].
      apply Hgrow. by eapply Him.
    + apply Forall_app. split; [|by constructor].
      eapply Forall_impl; [exact Hidx|]. exact Hgrow.
Qed.

Lemma face_vertex_inv (attrib : attrib_t F) (mesh : mesh_t) (offset fv v : Z)
    (s s' : submesh (F:=F)) :
  face_vertex feq fzero fone fsub glm_cross glm_normalize attrib mesh offset fv v s
  = Some s' ->
  submesh_inv feq s -> submesh_inv feq s'.
Proof.
  unfold face_vertex. intros Hrun Hinv.
  destruct (at_ (mesh_indices mesh) (offset + v)) as [index|]; [|done].
  cbn in Hrun.
  destruct (index_map s !! index) as [id|] eqn:Him.
  - injection Hrun as <-. pose proof Hinv as (_ & _ & _ & Hmap & _).
    apply push_index_inv; [done | by eapply Hmap | done].
  - destruct (make_vertex _ _ _ _ _ _ _ _ _ _ _) as [vertex|]; [|done].
    cbn in Hrun. injection Hrun as <-. by apply add_vertex_inv.
Qed.

Lemma face_loop_inv (attrib : attrib_t F) (mesh : mesh_t) (offset fv : Z)
    (n : nat) (v : Z) (s s' : submesh (F:=F)) :
  face_loop feq fzero fone fsub glm_cross glm_normalize attrib mesh offset fv n v s
  = Some s' ->
  submesh_inv feq s -> submesh_inv feq s'.
Proof.
  revert v s. induction n as [|n IH]; intros v s Hrun Hinv.
  - cbn in Hrun. by injection Hrun as <-.
  - cbn [face_loop] in Hrun.
    destruct (face_vertex _ _ _ _ _ _ _ _ _ _ _ _) as [s1|] eqn:H1; [|done].
    cbn in Hrun. eapply IH; [exact Hrun|]. by eapply face_vertex_inv.
Qed.

Lemma faces_loop_ok (attrib : attrib_t F) (mesh : mesh_t) (n : nat) (f offset : Z)
    (s : submesh (F:=F)) (out res : list (Mesh F)) :
  (forall a b, feq a b = feq b a) ->
  faces_loop feq fzero fone fsub glm_cross glm_normalize default_material
    attrib mesh n f offset s out = Some res ->
  submesh_inv feq s -> Forall (mesh_ok feq) out -> Forall (mesh_ok feq) res.
Proof.
  intros Hsym.
  revert f offset s out. induction n as [|n IH]; intros f offset s out Hrun Hinv Hout.
  - cbn in Hrun. by injection Hrun as <-.
  - cbn [faces_loop] in Hrun.
    destruct (at_ (num_face_vertices mesh) f) as [fv|]; [|done]. cbn in Hrun.
    destruct (face_loop _ _ _ _ _ _ _ _ _ _ _ _ _) as [s1|] eqn:H1; [|done].
    cbn in Hrun.
    pose proof (face_loop_inv _ _ _ _ _ _ _ _ H1 Hinv) as Hinv1.
    match type of Hrun with
    | context [mbind _ ?m] => destruct m as [[|]|]
    end; cbn in Hrun; [| |done].
    + eapply IH; [exact Hrun | apply submesh_empty_inv |].
      apply Forall_app. split; [done|].
      constructor; [|constructor].
      destruct Hinv1 as (Hnd & _ & _ & _ & Hidx). split; [exact Hidx|].
      by apply later_differs_stored_once.
    + by eapply IH.
Qed.

Lemma shapes_loop_ok (attrib : attrib_t F) (shapes : list shape_t)
    (out res : list (Mesh F)) :
  (forall a b, feq a b = feq b a) ->
  shapes_loop feq fzero fone fsub glm_cross glm_normalize default_material
    attrib shapes out = Some res ->
  Forall (mesh_ok feq) out -> Forall (mesh_ok feq) res.
Proof.
  intros Hsym.
  revert out. induction shapes as [|shape shapes IH]; intros out Hrun Hout.
  - cbn in Hrun. by injection Hrun as <-.
  - cbn [shapes_loop] in Hrun.
    destruct (faces_loop _ _ _ _ _ _ _ _ _ _ _ _ _ _) as [out'|] eqn:H1; [|done].
    cbn in Hrun. eapply IH; [exact Hrun|].
    eapply faces_loop_ok; [done | exact H1 | apply submesh_empty_inv | done].
Qed.


End mesh_facts.

(* ================================================================== *)
(** * Instances *)

Lemma environment_consumed_at_most_once_witness :
  Engine.one_buffer !! 0%nat = Some (Engine.mk_GLBuffers 1 6 0)
  /\ exists t s',
       Engine.main_loop Engine.loaded_exr Engine.some_framebuffer Engine.one_buffer 3 4
         ([false; true] ++ [true; false]) Engine.pending_state = (t, Some (tt, s'))
       /\ (length (List.filter Engine.is_get t) <= 1)%nat
       /\ length (List.filter Engine.is_upload t) = length (List.filter Engine.is_get t).
Proof.
  split; [reflexivity|].
  destruct (environment_consumed_at_most_once
              Engine.loaded_exr Engine.some_framebuffer Engine.one_buffer 3 4
              (Engine.mk_GLBuffers 1 6 0) [false; true] [true; false]
              Engine.pending_state eq_refl)
    as (t1 & s1 & t2 & s2 & _ & _ & Hrun & Hle & Hup & _).
  exists (t1 ++ t2), s2. split; [exact Hrun|]. split; [exact Hle | exact Hup].
Defined.

Lemma materials_packed_in_order_witness :
  Engine.stride
  * Z.of_nat (length [Mesh.mk_Material (glm.mk_vec3 1 2 3) (glm.mk_vec3 4 5 6)
                        (glm.mk_vec3 7 8 9) 10; Mesh.black]) < 2 ^ 31
  /\ exists t s',
       Engine.allocate_pt_materials 1
         [Mesh.mk_Material (glm.mk_vec3 1 2 3) (glm.mk_vec3 4 5 6) (glm.mk_vec3 7 8 9) 10;
          Mesh.black]
         Engine.initial_state = (t, Some (tt, s'))
       /\ List.filter Engine.is_upload t
          = [Engine.TexImage2D Engine.GL_RGBA32F 8 1
               (Some [1; 2; 3; 1;  4; 5; 6; 1;  7; 8; 9; 1;  10; 10; 10; 10;
                      0; 0; 0; 1;  0; 0; 0; 1;  0; 0; 0; 1;  0; 0; 0; 0])].
Proof.
  split; [reflexivity|].
  destruct (materials_packed_in_order 1
              [Mesh.mk_Material (glm.mk_vec3 1 2 3) (glm.mk_vec3 4 5 6)
                 (glm.mk_vec3 7 8 9) 10; Mesh.black]
              Engine.initial_state eq_refl)
    as (t & s' & Hrun & Hup & _).
  exists t, s'. split; [exact Hrun | exact Hup].
Defined.

Lemma dispatch_grid_is_render_resolution_witness :
  Engine.one_buffer !! 0%nat = Some (Engine.mk_GLBuffers 1 6 0)
  /\ exists t s',
       Engine.main 1 Engine.GL_FRAMEBUFFER_COMPLETE [Mesh.black] Engine.loaded_exr
         Engine.one_buffer 3 4 [false; true; false] Engine.initial_state
       = (t, Some (tt, s'))
       /\ List.filter Engine.is_dispatch t
          = [Engine.DispatchCompute 1000 1000 1; Engine.DispatchCompute 1000 1000 1;
             Engine.DispatchCompute 1000 1000 1]
       /\ Engine.images s' !! Engine.render_target (Engine.pt s') = Some (1000, 1000).
Proof.
  split; [reflexivity|].
  destruct (dispatch_grid_is_render_resolution
              1 Engine.GL_FRAMEBUFFER_COMPLETE [Mesh.black] Engine.loaded_exr
              Engine.one_buffer 3 4 (Engine.mk_GLBuffers 1 6 0) [false; true; false]
              Engine.initial_state eq_refl)
    as (t & s' & Hrun & Hd & _ & Him).
  exists t, s'. split; [exact Hrun|]. split; [exact Hd | exact Him].
Defined.

Lemma incomplete_framebuffer_frames_still_run_witness :
  Engine.GL_FRAMEBUFFER_UNSUPPORTED <> Engine.GL_FRAMEBUFFER_COMPLETE
  /\ Engine.one_buffer !! 0%nat = Some (Engine.mk_GLBuffers 1 6 0)
  /\ exists t0 s0 t s',
       Engine.main_init 1 Engine.GL_FRAMEBUFFER_UNSUPPORTED [Mesh.black] Engine.initial_state
       = (t0, Some (Engine.Framebuffer_empty, s0))
       /\ Engine.main 1 Engine.GL_FRAMEBUFFER_UNSUPPORTED [Mesh.black] Engine.loaded_exr
            Engine.one_buffer 3 4 [false; true] Engine.initial_state
          = (t0 ++ t, Some (tt, s'))
       /\ List.filter Engine.is_dispatch t
          = [Engine.DispatchCompute Engine.RENDER_WIDTH Engine.RENDER_HEIGHT 1;
             Engine.DispatchCompute Engine.RENDER_WIDTH Engine.RENDER_HEIGHT 1]
       /\ List.filter Engine.is_draw t
          = [Engine.DrawElements 6; Engine.DrawElements 6].
Proof.
  assert (Hne : Engine.GL_FRAMEBUFFER_UNSUPPORTED <> Engine.GL_FRAMEBUFFER_COMPLETE)
    by discriminate.
  split; [exact Hne|]. split; [reflexivity|].
  destruct (incomplete_framebuffer_frames_still_run
              1 Engine.GL_FRAMEBUFFER_UNSUPPORTED [Mesh.black] Engine.loaded_exr
              Engine.one_buffer 3 4 (Engine.mk_GLBuffers 1 6 0) [false; true]
              Engine.initial_state Hne eq_refl)
    as (_ & t0 & s0 & t & s' & Hinit & _ & _ & Hmain & Hd & Hdr & _).
  exists t0, s0, t, s'. split; [exact Hinit|]. split; [exact Hmain|].
  split; [exact Hd | exact Hdr].
Defined.

(* ================================================================== *)
(** * Further properties of mesh.cpp *)

Section index_order.
Import Mesh.

(** [operator<] on index triples is a strict total order that agrees with
    [operator==]: no triple is below itself, the relation is transitive, and
    of two triples exactly one of "below", "equal" and "above" holds; and
    [operator==] holds exactly for equal triples. *)
Theorem index_lt_strict_total_order :
  (forall a, index_lt a a = false)
  /\ (forall a b c, index_lt a b = true -> index_lt b c = true -> index_lt a c = true)
  /\ (forall a b,
        (index_lt a b = true /\ index_eq a b = false /\ index_lt b a = false)
        \/ (index_lt a b = false /\ index_eq a b = true /\ index_lt b a = false)
        \/ (index_lt a b = false /\ index_eq a b = false /\ index_lt b a = true))
  /\ (forall a b, index_eq a b = true <-> a = b).
Proof.
  unfold index_lt, index_eq. split_and!.
  - intros [v n t]; cbn. rewrite !Z.ltb_irrefl. reflexivity.
  - intros [v1 n1 t1] [v2 n2 t2] [v3 n3 t3]; cbn.
    repeat match goal with
           | |- context [?x <? ?y] => destruct (Z.ltb_spec x y)
           end; intros; try done; try lia.
  - intros [v1 n1 t1] [v2 n2 t2]; cbn.
    repeat match goal with
           | |- context [?x <? ?y] => destruct (Z.ltb_spec x y)
           | |- context [?x =? ?y] => destruct (Z.eqb_spec x y)
           end; cbn; try lia; tauto.
  - intros [v1 n1 t1] [v2 n2 t2]; cbn.
    rewrite !andb_true_iff, !Z.eqb_eq. split.
    + intros [[-> ->] ->]. reflexivity.
    + intros [= -> -> ->]. done.
Qed.

End index_order.

Section mesh_counts.
Import Mesh.
Context {F : Type}.
Variable feq : F -> F -> bool.
Variables (fzero fone : F) (fsub : F -> F -> F).
Variable glm_cross : glm.vec3 F -> glm.vec3 F -> glm.vec3 F.
Variable glm_normalize : glm.vec3 F -> glm.vec3 F.
Variable default_material : Material F.

Lemma at_Some {A} (l : list A) (i : Z) (a : A) :
  at_ l i = Some a <-> 0 <= i /\ l !! Z.to_nat i = Some a.
Proof.
  unfold at_. case_bool_decide; [tauto|]. split; [done|]. intros [? _]. lia.
Qed.

Lemma at_of_nat {A} (l : list A) (i : nat) : at_ l (Z.of_nat i) = l !! i.
Proof.
  unfold at_. rewrite bool_decide_true by lia. by rewrite Nat2Z.id.
Qed.

Lemma face_vertex_length (attrib : attrib_t F) (mesh : mesh_t) (offset fv v : Z)
    (s s' : submesh (F:=F)) :
  face_vertex feq fzero fone fsub glm_cross glm_normalize attrib mesh offset fv v s = Some s' ->
  length (sm_indices s') = S (length (sm_indices s)).
Proof.
  unfold face_vertex. intros Hrun.
  destruct (at_ (mesh_indices mesh) (offset + v)) as [index|]; [|done].
  cbn in Hrun.
  destruct (index_map s !! index) as [id|].
  - injection Hrun as <-. cbn. rewrite length_app. cbn. lia.
  - destruct (make_vertex _ _ _ _ _ _ _ _ _ _ _) as [vertex|]; [|done].
    cbn in Hrun. injection Hrun as <-. unfold add_vertex.
    destruct (find_vertex feq (unique_vertices s) vertex); cbn; rewrite length_app; cbn; lia.
Qed.

Lemma face_loop_length (attrib : attrib_t F) (mesh : mesh_t) (offset fv : Z)
    (n : nat) (v : Z) (s s' : submesh (F:=F)) :
  face_loop feq fzero fone fsub glm_cross glm_normalize attrib mesh offset fv n v s = Some s' ->
  length (sm_indices s') = (length (sm_indices s) + n)%nat.
Proof.
  revert v s. induction n as [|n IH]; intros v s Hrun.
  - cbn in Hrun. injection Hrun as <-. lia.
  - cbn [face_loop] in Hrun.
    destruct (face_vertex _ _ _ _ _ _ _ _ _ _ _ _) as [s1|] eqn:H1; [|done].
    cbn in Hrun. apply IH in Hrun. apply face_vertex_length in H1. lia.
Qed.

(** What one iteration of the loop over faces does, read off a run that
    returned: the face size read, the containers after the face's corners,
    and whether the face closed the submesh. *)
Lemma faces_loop_step (attrib : attrib_t F) (mesh : mesh_t) (n : nat) (f0 : nat)
    (offset : Z) (s : submesh (F:=F)) (out res : list (Mesh F)) :
  faces_loop feq fzero fone fsub glm_cross glm_normalize default_material
    attrib mesh (S n) (Z.of_nat f0) offset s out = Some res ->
  (S n + f0 = length (num_face_vertices mesh))%nat ->
  exists fv s1,
    num_face_vertices mesh !! f0 = Some fv
    /\ face_loop feq fzero fone fsub glm_cross glm_normalize attrib mesh offset fv
         (Z.to_nat fv) 0 s = Some s1
    /\ ((closes_submesh mesh f0 = true
         /\ faces_loop feq fzero fone fsub glm_cross glm_normalize default_material
              attrib mesh n (Z.of_nat (S f0)) (offset + fv) submesh_empty
              (out ++ [mk_Mesh (sm_vertices s1) (sm_indices s1) default_material])
            = Some res)
        \/ (closes_submesh mesh f0 = false /\ n <> 0%nat
            /\ faces_loop feq fzero fone fsub glm_cross glm_normalize default_material
                 attrib mesh n (Z.of_nat (S f0)) (offset + fv) s1 out = Some res)).
Proof.
  intros Hrun Hlen. cbn [faces_loop] in Hrun.
  replace (Z.of_nat f0 + 1) with (Z.of_nat (S f0)) in Hrun by lia.
  rewrite !at_of_nat in Hrun.
  destruct (num_face_vertices mesh !! f0) as [fv|] eqn:Hfv; [|done]. cbn in Hrun.
  destruct (face_loop _ _ _ _ _ _ _ _ _ _ _ _ _) as [s1|] eqn:H1; [|done].
  cbn in Hrun. exists fv, s1. split; [done|]. split; [done|].
  unfold closes_submesh.
  case_bool_decide as Hlast.
  - cbn in Hrun. left. split; [|done].
    rewrite bool_decide_true by lia. done.
  - rewrite (bool_decide_false (S f0 = _)) by lia.
    destruct (material_ids mesh !! f0) as [m0|] eqn:Hm0; [|done]. cbn in Hrun.
    destruct (material_ids mesh !! S f0) as [m1|] eqn:Hm1; [|done]. cbn in Hrun.
    case_bool_decide as Hne; cbn in Hrun.
    + left. split; [|done]. rewrite bool_decide_true; [done|]. congruence.
    + right. split; [|split; [lia|done]].
      rewrite bool_decide_false; [done|]. intros Hc. apply Hc. congruence.
Qed.

Lemma sum_list_append (l k : list nat) :
  sum_list (l ++ k) = (sum_list l + sum_list k)%nat.
Proof. induction l as [|a l IH]; cbn; [done|]. rewrite IH. lia. Qed.

Lemma sum_list_first (a : nat) (l : list nat) :
  sum_list (a :: l) = (a + sum_list l)%nat.
Proof. reflexivity. Qed.

Lemma drop_lookup_cons {A} (l : list A) (i : nat) (a : A) :
  l !! i = Some a -> drop i l = a :: drop (S i) l.
Proof.
  revert i. induction l as [|b l IH]; intros [|i] Hi; try done.
  - cbn in Hi. by injection Hi as ->.
  - cbn. by apply IH.
Qed.

Lemma faces_loop_total (attrib : attrib_t F) (mesh : mesh_t) (n : nat) (f0 : nat)
    (offset : Z) (s : submesh (F:=F)) (out res : list (Mesh F)) :
  faces_loop feq fzero fone fsub glm_cross glm_normalize default_material
    attrib mesh n (Z.of_nat f0) offset s out = Some res ->
  (n + f0 = length (num_face_vertices mesh))%nat ->
  (n = 0%nat -> sm_indices s = []) ->
  total_indices res
  = (total_indices out + length (sm_indices s)
     + sum_list (map Z.to_nat (drop f0 (num_face_vertices mesh))))%nat.
Proof.
  revert f0 offset s out. induction n as [|n IH]; intros f0 offset s out Hrun Hlen Hend.
  - cbn in Hrun. injection Hrun as <-. rewrite Hend by done.
    rewrite drop_ge by lia. cbn. lia.
  - destruct (faces_loop_step _ _ _ _ _ _ _ _ Hrun Hlen)
      as (fv & s1 & Hfv & H1 & [[_ Hrest]|[_ [Hn Hrest]]]);
      apply face_loop_length in H1; rewrite (drop_lookup_cons _ _ _ Hfv); cbn [map]; rewrite sum_list_first.
    + apply IH in Hrest; [|lia|done]. rewrite Hrest.
      unfold total_indices. rewrite map_app, sum_list_append. cbn [map].
      rewrite sum_list_first. cbn. lia.
    + apply IH in Hrest; [|lia|done]. rewrite Hrest. lia.
Qed.

Lemma faces_loop_count (attrib : attrib_t F) (mesh : mesh_t) (n : nat) (f0 : nat)
    (offset : Z) (s : submesh (F:=F)) (out res : list (Mesh F)) :
  faces_loop feq fzero fone fsub glm_cross glm_normalize default_material
    attrib mesh n (Z.of_nat f0) offset s out = Some res ->
  (n + f0 = length (num_face_vertices mesh))%nat ->
  length res
  = (length out + length (List.filter (closes_submesh mesh) (seq f0 n)))%nat.
Proof.
  revert f0 offset s out. induction n as [|n IH]; intros f0 offset s out Hrun Hlen.
  - cbn in Hrun. injection Hrun as <-. cbn. lia.
  - destruct (faces_loop_step _ _ _ _ _ _ _ _ Hrun Hlen)
      as (fv & s1 & Hfv & H1 & [[Hc Hrest]|[Hc [Hn Hrest]]]);
      cbn [seq List.filter]; rewrite Hc; apply IH in Hrest; try lia; rewrite Hrest;
      rewrite ?length_app; cbn; lia.
Qed.

Lemma shapes_loop_counts (attrib : attrib_t F) (shapes : list shape_t)
    (out res : list (Mesh F)) :
  shapes_loop feq fzero fone fsub glm_cross glm_normalize default_material
    attrib shapes out = Some res ->
  total_indices res
  = (total_indices out + sum_list (map (fun sh => corner_count (shape_mesh sh)) shapes))%nat
  /\ length res
     = (length out + sum_list (map (fun sh => submesh_count (shape_mesh sh)) shapes))%nat.
Proof.
  revert out. induction shapes as [|shape shapes IH]; intros out Hrun.
  - cbn in Hrun. injection Hrun as <-. cbn. lia.
  - cbn [shapes_loop] in Hrun.
    destruct (faces_loop _ _ _ _ _ _ _ _ _ _ _ _ _ _) as [out'|] eqn:H1; [|done].
    cbn in Hrun. apply IH in Hrun as [Ht Hc].
    change 0 with (Z.of_nat 0) in H1.
    pose proof (faces_loop_total _ _ _ _ _ _ _ _ H1 ltac:(lia) ltac:(done)) as Ht1.
    pose proof (faces_loop_count _ _ _ _ _ _ _ _ H1 ltac:(lia)) as Hc1.
    cbn [map]. rewrite !sum_list_first, Ht, Hc, Ht1, Hc1.
    cbn [sm_indices submesh_empty length]. rewrite drop_0.
    unfold corner_count, submesh_count. lia.
Qed.

(** On a run that returned a model, the submeshes hold as many indices in
    total as the parsed shapes have face corners: every corner yields exactly
    one index. *)
Theorem load_model_one_index_per_corner
    (w : World F) (path : string) (reader : ObjReader F)
    (diags : list diag) (model : Model F) :
  fs_exists w path = true ->
  ParseFromFile w path (parent_path w path) = Some reader ->
  load_model feq fzero fone fsub glm_cross glm_normalize default_material w path
  = (diags, Some model) ->
  total_indices (meshes model)
  = sum_list (map (fun sh => corner_count (shape_mesh sh)) (GetShapes reader)).
Proof.
  unfold load_model. intros -> -> Hrun. cbn in Hrun.
  injection Hrun as _ Hrun.
  destruct (shapes_loop _ _ _ _ _ _ _ _ _ _) as [res|] eqn:Hloop; [|done].
  cbn in Hrun. injection Hrun as <-. cbn [meshes].
  apply shapes_loop_counts in Hloop as [Hloop _]. exact Hloop.
Qed.

(** On a run that returned a model, the number of submeshes is the number of
    faces that close one: per shape, its last face and every face followed by
    a face with another material id.  A shape without faces gives none. *)
Theorem load_model_one_submesh_per_material_run
    (w : World F) (path : string) (reader : ObjReader F)
    (diags : list diag) (model : Model F) :
  fs_exists w path = true ->
  ParseFromFile w path (parent_path w path) = Some reader ->
  load_model feq fzero fone fsub glm_cross glm_normalize default_material w path
  = (diags, Some model) ->
  length (meshes model)
  = sum_list (map (fun sh => submesh_count (shape_mesh sh)) (GetShapes reader)).
Proof.
  unfold load_model. intros -> -> Hrun. cbn in Hrun.
  injection Hrun as _ Hrun.
  destruct (shapes_loop _ _ _ _ _ _ _ _ _ _) as [res|] eqn:Hloop; [|done].
  cbn in Hrun. injection Hrun as <-. cbn [meshes].
  apply shapes_loop_counts in Hloop as [_ Hloop]. exact Hloop.
Qed.

(** ** What the indices refer to *)

Lemma take_plus {A} (a b : nat) (l : list A) :
  take (a + b) l = take a l ++ take b (drop a l).
Proof.
  revert l. induction a as [|a IH]; intros [|x l]; cbn; try done.
  - by rewrite take_nil.
  - by rewrite IH.
Qed.

(** The vertex made for a corner holds exactly what the triple selects. *)
Lemma make_vertex_exact (attrib : attrib_t F) (mesh : mesh_t) (offset fv v : Z)
    (index : index_t) (vertex : Vertex F) :
  make_vertex fzero fone fsub glm_cross glm_normalize attrib mesh offset fv v index
  = Some vertex ->
  read3 (attrib_vertices attrib) (vertex_index index) = Some (position vertex)
  /\ corner_uv fzero fone fsub attrib index = Some (uv vertex)
  /\ (0 <= normal_index index ->
      read3 (attrib_normals attrib) (normal_index index) = Some (normal vertex)).
Proof.
  unfold make_vertex, corner_uv. intros Hrun.
  destruct (read3 (attrib_vertices attrib) (vertex_index index)) as [pos|]; [|done].
  cbn in Hrun.
  destruct (bool_decide (0 <= normal_index index)) eqn:Hn.
  - destruct (read3 (attrib_normals attrib) (normal_index index)) as [nrm|]; [|done].
    cbn in Hrun.
    match type of Hrun with
    | mbind _ ?m = _ => destruct m as [tex|] eqn:Htex; [|done]
    end.
    cbn in Hrun. injection Hrun as <-. cbn. split_and!; reflexivity.
  - apply bool_decide_eq_false in Hn.
    match type of Hrun with
    | mbind _ ?m = _ => destruct m as [nrm|]; [|done]
    end.
    cbn in Hrun.
    match type of Hrun with
    | mbind _ ?m = _ => destruct m as [tex|] eqn:Htex; [|done]
    end.
    cbn in Hrun. injection Hrun as <-. cbn. split_and!; [reflexivity | reflexivity | done].
Qed.

Lemma make_vertex_carries (attrib : attrib_t F) (mesh : mesh_t) (offset fv v : Z)
    (index : index_t) (vertex : Vertex F) :
  make_vertex fzero fone fsub glm_cross glm_normalize attrib mesh offset fv v index
  = Some vertex ->
  carries feq fzero fone fsub attrib vertex index.
Proof.
  intros Hmk. apply make_vertex_exact in Hmk as (Hpos & Htex & Hnrm).
  unfold carries. split_and!.
  - eexists. split; [exact Hpos | by left].
  - eexists. split; [exact Htex | by left].
  - intros Hn. eexists. split; [by apply Hnrm | by left].
Qed.

(** A stored key that compares equal to the vertex made for a corner carries
    what the corner's triple selects. *)
Lemma equal_key_carries (attrib : attrib_t F) (mesh : mesh_t) (offset fv v : Z)
    (index : index_t) (vertex key : Vertex F) :
  make_vertex fzero fone fsub glm_cross glm_normalize attrib mesh offset fv v index
  = Some vertex ->
  Vertex_eq feq vertex key = true ->
  carries feq fzero fone fsub attrib key index.
Proof.
  intros Hmk Heq. apply make_vertex_exact in Hmk as (Hpos & Htex & Hnrm).
  unfold Vertex_eq in Heq. rewrite !andb_true_iff in Heq.
  destruct Heq as [[Hp Hn] Ht].
  unfold carries. split_and!.
  - eexists. split; [exact Hpos | by right].
  - eexists. split; [exact Htex | by right].
  - intros H0. eexists. split; [by apply Hnrm | by right].
Qed.

Lemma faithful_empty (attrib : attrib_t F) :
  faithful feq fzero fone fsub attrib submesh_empty [].
Proof.
  unfold faithful. split_and!.
  - apply submesh_empty_inv.
  - constructor.
  - intros k id Hk. cbn in Hk. by rewrite lookup_empty in Hk.
  - constructor.
  - intros j Hj. cbn in Hj. lia.
  - done.
Qed.

Lemma refers_grow (attrib : attrib_t F) (vs : list (Vertex F)) (x : Vertex F)
    (i : Z) (k : index_t) :
  refers feq fzero fone fsub attrib (vs !! Z.to_nat i) k ->
  refers feq fzero fone fsub attrib ((vs ++ [x]) !! Z.to_nat i) k.
Proof.
  intros (v & Hv & Hc). exists v. split; [|done].
  by apply lookup_app_l_Some.
Qed.

Lemma face_vertex_faithful (attrib : attrib_t F) (mesh : mesh_t) (offset fv v : Z)
    (s s' : submesh (F:=F)) (ks : list index_t) :
  face_vertex feq fzero fone fsub glm_cross glm_normalize attrib mesh offset fv v s = Some s' ->
  faithful feq fzero fone fsub attrib s ks ->
  Z.of_nat (length (sm_indices s)) < 2 ^ 32 ->
  exists k,
    0 <= offset + v
    /\ mesh_indices mesh !! Z.to_nat (offset + v) = Some k
    /\ faithful feq fzero fone fsub attrib s' (ks ++ [k]).
Proof.
  unfold face_vertex. intros Hrun Hf Hbound.
  destruct (at_ (mesh_indices mesh) (offset + v)) as [k|] eqn:Hk; [|done].
  apply at_Some in Hk as [Hpos Hk]. exists k. split; [done|]. split; [done|].
  cbn in Hrun.
  pose proof Hf as (Hinv & Hrefs & Him & Huv & Hcov & Hle).
  destruct (index_map s !! k) as [id|] eqn:Hid.
  - injection Hrun as <-. unfold faithful; cbn. split_and!; try done.
    + pose proof Hinv as (_ & _ & _ & Hmap & _).
      apply push_index_inv; [done | by eapply Hmap | done].
    + apply Forall2_app; [done|]. constructor; [|constructor]. by apply Him.
    + intros j Hj. apply elem_of_app. left. by apply Hcov.
    + rewrite length_app. cbn. lia.
  - destruct (make_vertex _ _ _ _ _ _ _ _ _ _ _) as [vertex|] eqn:Hmk; [|done].
    cbn in Hrun. injection Hrun as <-.
    pose proof (add_vertex_inv feq k vertex s Hinv) as Hinv'.
    unfold faithful. split; [exact Hinv'|]. clear Hinv'.
    unfold add_vertex.
    destruct (find_vertex feq (unique_vertices s) vertex) as [id|] eqn:Hu; cbn.
    + apply find_vertex_Some in Hu as (key & Hin & Heq).
      assert (Hkey : sm_vertices s !! Z.to_nat id = Some key).
      { rewrite Forall_forall in Huv. apply (Huv (key, id)). by apply list_elem_of_In. }
      assert (Hnew : refers feq fzero fone fsub attrib (sm_vertices s !! Z.to_nat id) k).
      { exists key. split; [done|]. by eapply equal_key_carries. }
      split_and!; try done.
      * apply Forall2_app; [done|]. constructor; [done|constructor].
      * intros k' id' Hk'. apply lookup_insert_Some in Hk' as [[<- <-]|[_ Hk']]; [done|].
        by apply Him.
      * intros j Hj. apply elem_of_app. left. by apply Hcov.
      * rewrite length_app. cbn. lia.
    + apply make_vertex_carries in Hmk.
      assert (Hid' : to_uint32 (Z.of_nat (length (sm_vertices s)))
                     = Z.of_nat (length (sm_vertices s))).
      { unfold to_uint32. apply Z.mod_small. lia. }
      rewrite Hid'.
      assert (Hlast : (sm_vertices s ++ [vertex])
                        !! Z.to_nat (Z.of_nat (length (sm_vertices s))) = Some vertex).
      { rewrite Nat2Z.id, lookup_app_r by lia. by rewrite Nat.sub_diag. }
      assert (Hnew : refers feq fzero fone fsub attrib
                       ((sm_vertices s ++ [vertex])
                          !! Z.to_nat (Z.of_nat (length (sm_vertices s)))) k).
      { exists vertex. by split. }
      split_and!.
      * apply Forall2_app; [|constructor; [done|constructor]].
        eapply Forall2_impl; [exact Hrefs|]. intros i k' Hr. by apply refers_grow.
      * intros k' id' Hk'. apply lookup_insert_Some in Hk' as [[<- <-]|[_ Hk']]; [done|].
        by apply refers_grow, Him.
      * apply Forall_app. split; [|by constructor].
        eapply Forall_impl; [exact Huv|]. intros e He. by apply lookup_app_l_Some.
      * intros j Hj. rewrite length_app in Hj. cbn in Hj. apply elem_of_app.
        destruct (decide (j = length (sm_vertices s))) as [->|Hne].
        -- right. by apply list_elem_of_singleton.
        -- left. apply Hcov. lia.
      * rewrite !length_app. cbn. lia.
Qed.

Lemma face_loop_faithful (attrib : attrib_t F) (mesh : mesh_t) (offset fv : Z)
    (n : nat) (v : Z) (s s' : submesh (F:=F)) (ks : list index_t) :
  face_loop feq fzero fone fsub glm_cross glm_normalize attrib mesh offset fv n v s = Some s' ->
  faithful feq fzero fone fsub attrib s ks ->
  Z.of_nat (length (sm_indices s)) <= offset + v ->
  Z.of_nat (length (mesh_indices mesh)) <= 2 ^ 32 ->
  faithful feq fzero fone fsub attrib s'
    (ks ++ take n (drop (Z.to_nat (offset + v)) (mesh_indices mesh))).
Proof.
  revert v s ks. induction n as [|n IH]; intros v s ks Hrun Hf Hlen Hbound.
  - cbn in Hrun. injection Hrun as <-. by rewrite take_0, app_nil_r.
  - cbn [face_loop] in Hrun.
    destruct (face_vertex _ _ _ _ _ _ _ _ _ _ _ _) as [s1|] eqn:H1; [|done].
    cbn in Hrun.
    assert (Hin : exists k, mesh_indices mesh !! Z.to_nat (offset + v) = Some k
                            /\ 0 <= offset + v).
    { unfold face_vertex in H1.
      destruct (at_ (mesh_indices mesh) (offset + v)) as [k|] eqn:Hk; [|done].
      apply at_Some in Hk as [? ?]. by exists k. }
    destruct Hin as (k0 & Hk0 & Hpos).
    pose proof (lookup_lt_Some _ _ _ Hk0) as Hlt.
    destruct (face_vertex_faithful _ _ _ _ _ _ _ _ H1 Hf ltac:(lia))
      as (k & _ & Hk & Hf1).
    apply face_vertex_length in H1.
    eapply IH in Hrun; [|exact Hf1|lia|done].
    rewrite (drop_lookup_cons _ _ _ Hk). cbn [take].
    replace (Z.to_nat (offset + (v + 1))) with (S (Z.to_nat (offset + v))) in Hrun by lia.
    by rewrite <- app_assoc in Hrun.
Qed.

Lemma referenced_faithful (attrib : attrib_t F) (s : submesh (F:=F)) (ks : list index_t) :
  faithful feq fzero fone fsub attrib s ks ->
  Forall2 (refers feq fzero fone fsub attrib)
    (referenced (mk_Mesh (sm_vertices s) (sm_indices s) default_material)) ks
  /\ covered (mk_Mesh (sm_vertices s) (sm_indices s) default_material).
Proof.
  intros (_ & Hrefs & _ & _ & Hcov & _). split; [|exact Hcov].
  unfold referenced. cbn. by apply Forall2_fmap_l.
Qed.

Lemma faces_loop_faithful (attrib : attrib_t F) (mesh : mesh_t) (n : nat) (f0 : nat)
    (offset : Z) (s : submesh (F:=F)) (out res : list (Mesh F))
    (ks done_ks : list index_t) :
  faces_loop feq fzero fone fsub glm_cross glm_normalize default_material
    attrib mesh n (Z.of_nat f0) offset s out = Some res ->
  (n + f0 = length (num_face_vertices mesh))%nat ->
  Forall (fun fv => 0 <= fv) (num_face_vertices mesh) ->
  0 <= offset ->
  Z.of_nat (length (mesh_indices mesh)) <= 2 ^ 32 ->
  faithful feq fzero fone fsub attrib s ks ->
  Z.of_nat (length (sm_indices s)) <= offset ->
  (n = 0%nat -> sm_indices s = []) ->
  Forall2 (refers feq fzero fone fsub attrib) (concat (map referenced out)) done_ks ->
  Forall covered out ->
  Forall2 (refers feq fzero fone fsub attrib) (concat (map referenced res))
    (done_ks ++ ks
     ++ take (sum_list (map Z.to_nat (drop f0 (num_face_vertices mesh))))
          (drop (Z.to_nat offset) (mesh_indices mesh)))
  /\ Forall covered res.
Proof.
  revert f0 offset s out ks done_ks.
  induction n as [|n IH];
    intros f0 offset s out ks done_ks Hrun Hlen Hfv0 Hoff Hbound Hf Hidx Hend Hout Hcov.
  - cbn in Hrun. injection Hrun as <-.
    destruct Hf as (_ & Hrefs & _). rewrite Hend in Hrefs by done.
    apply Forall2_nil_inv_l in Hrefs as ->.
    rewrite drop_ge by lia. cbn. by rewrite app_nil_r.
  - destruct (faces_loop_step _ _ _ _ _ _ _ _ Hrun Hlen)
      as (fv & s1 & Hfv & H1 & Hcases).
    assert (Hfvpos : 0 <= fv).
    { eapply Forall_lookup_1 in Hfv0; [|exact Hfv]. done. }
    pose proof (face_loop_length _ _ _ _ _ _ _ _ H1) as Hlen1.
    replace offset with (offset + 0) in H1 at 2 by lia.
    eapply face_loop_faithful in H1; [|exact Hf|lia|done].
    replace (offset + 0) with offset in H1 by lia.
    rewrite (drop_lookup_cons _ _ _ Hfv). cbn [map]. rewrite sum_list_first.
    rewrite take_plus, drop_drop.
    replace (Z.to_nat offset + Z.to_nat fv)%nat with (Z.to_nat (offset + fv)) by lia.
    destruct (referenced_faithful _ _ _ H1) as [Href1 Hcov1].
    destruct Hcases as [[_ Hrest]|[_ [Hn Hrest]]].
    + eapply (IH _ _ _ _ [] (done_ks ++ ks ++ take (Z.to_nat fv)
                                (drop (Z.to_nat offset) (mesh_indices mesh))))
        in Hrest; try done; try lia.
      * cbn [app] in Hrest. by rewrite <- !app_assoc in Hrest.
      * apply faithful_empty.
      * cbn. lia.
      * rewrite map_app, concat_app. cbn. rewrite app_nil_r.
        by apply Forall2_app.
      * apply Forall_app. split; [done|]. by constructor.
    + eapply (IH _ _ _ _ _ done_ks) in Hrest; try done; try lia.
      by rewrite <- ?app_assoc in Hrest.
Qed.

Lemma shapes_loop_faithful (attrib : attrib_t F) (shapes : list shape_t)
    (out res : list (Mesh F)) (done_ks : list index_t) :
  shapes_loop feq fzero fone fsub glm_cross glm_normalize default_material
    attrib shapes out = Some res ->
  Forall (fun sh => Forall (fun fv => 0 <= fv) (num_face_vertices (shape_mesh sh))
                    /\ Z.of_nat (length (mesh_indices (shape_mesh sh))) <= 2 ^ 32)
         shapes ->
  Forall2 (refers feq fzero fone fsub attrib) (concat (map referenced out)) done_ks ->
  Forall covered out ->
  Forall2 (refers feq fzero fone fsub attrib) (concat (map referenced res))
    (done_ks ++ concat (map (fun sh => corners (shape_mesh sh)) shapes))
  /\ Forall covered res.
Proof.
  revert out done_ks. induction shapes as [|shape shapes IH];
    intros out done_ks Hrun Hwf Hout Hcov.
  - cbn in Hrun. injection Hrun as <-. cbn. by rewrite app_nil_r.
  - cbn [shapes_loop] in Hrun.
    destruct (faces_loop _ _ _ _ _ _ _ _ _ _ _ _ _ _) as [out'|] eqn:H1; [|done].
    cbn in Hrun. apply Forall_cons in Hwf as [[Hfv Hbound] Hwf].
    change 0 with (Z.of_nat 0) in H1 at 1.
    eapply (faces_loop_faithful _ _ _ _ _ _ _ _ [] done_ks) in H1;
      try done; try lia; [|apply faithful_empty].
    destruct H1 as [Hout' Hcov'].
    cbn [app] in Hout'. rewrite drop_0 in Hout'. cbn in Hout'. rewrite drop_0 in Hout'.
    eapply IH in Hrun; [|done|exact Hout'|done].
    cbn [map concat]. unfold corners at 1, corner_count at 1.
    by rewrite app_assoc.
Qed.

(** On a run that returned a model, read the vertex each index refers to, in
    order, over all submeshes: it is the sequence of the face corners of all
    shapes, in that each referenced vertex has the position and the texture
    coordinate that the corner's index triple selects, and the normal when
    the triple names one - the selected values themselves, or values that
    [operator==] compares equal to them (a vertex found under an equal key
    is reused as it was stored). *)
Theorem load_model_references_carry_corner_data
    (w : World F) (path : string) (reader : ObjReader F)
    (diags : list diag) (model : Model F) :
  fs_exists w path = true ->
  ParseFromFile w path (parent_path w path) = Some reader ->
  Forall (fun sh => Forall (fun fv => 0 <= fv) (num_face_vertices (shape_mesh sh))
                    /\ Z.of_nat (length (mesh_indices (shape_mesh sh))) <= 2 ^ 32)
         (GetShapes reader) ->
  load_model feq fzero fone fsub glm_cross glm_normalize default_material w path
  = (diags, Some model) ->
  Forall2 (refers feq fzero fone fsub (GetAttrib reader))
    (concat (map referenced (meshes model)))
    (concat (map (fun sh => corners (shape_mesh sh)) (GetShapes reader))).
Proof.
  unfold load_model. intros -> -> Hwf Hrun. cbn in Hrun.
  injection Hrun as _ Hrun.
  destruct (shapes_loop _ _ _ _ _ _ _ _ _ _) as [res|] eqn:Hloop; [|done].
  cbn in Hrun. injection Hrun as <-. cbn [meshes].
  eapply (shapes_loop_faithful _ _ _ _ []) in Hloop; [|done|constructor|constructor].
  by destruct Hloop.
Qed.

(** On a run that returned a model, no submesh stores a vertex that none of
    its indices refers to; in particular no submesh has more vertices than
    indices. *)
Theorem load_model_vertices_all_referenced
    (w : World F) (path : string) (reader : ObjReader F)
    (diags : list diag) (model : Model F) :
  fs_exists w path = true ->
  ParseFromFile w path (parent_path w path) = Some reader ->
  Forall (fun sh => Forall (fun fv => 0 <= fv) (num_face_vertices (shape_mesh sh))
                    /\ Z.of_nat (length (mesh_indices (shape_mesh sh))) <= 2 ^ 32)
         (GetShapes reader) ->
  load_model feq fzero fone fsub glm_cross glm_normalize default_material w path
  = (diags, Some model) ->
  Forall (fun m => forall j, (j < length (vertices m))%nat -> Z.of_nat j ∈ indices m)
         (meshes model).
Proof.
  unfold load_model. intros -> -> Hwf Hrun. cbn in Hrun.
  injection Hrun as _ Hrun.
  destruct (shapes_loop _ _ _ _ _ _ _ _ _ _) as [res|] eqn:Hloop; [|done].
  cbn in Hrun. injection Hrun as <-. cbn [meshes].
  eapply (shapes_loop_faithful _ _ _ _ []) in Hloop; [|done|constructor|constructor].
  by destruct Hloop.
Qed.


(** ** Parser output on which the loop returns *)

Lemma at_is_Some {A} (l : list A) (i : Z) :
  0 <= i < Z.of_nat (length l) -> is_Some (at_ l i).
Proof.
  intros Hi. unfold at_. rewrite bool_decide_true by lia.
  apply lookup_lt_is_Some. lia.
Qed.

Lemma read3_is_Some (a : list F) (i : Z) :
  0 <= i -> 3 * i + 2 < Z.of_nat (length a) -> is_Some (read3 a i).
Proof.
  intros Hi Hlen. unfold read3.
  destruct (at_is_Some a (3 * i + 0) ltac:(lia)) as [a0 ->].
  destruct (at_is_Some a (3 * i + 1) ltac:(lia)) as [a1 ->].
  destruct (at_is_Some a (3 * i + 2) ltac:(lia)) as [a2 ->].
  cbn. by eexists.
Qed.

Lemma make_vertex_is_Some (attrib : attrib_t F) (mesh : mesh_t) (offset fv v : Z)
    (index : index_t) :
  Forall (readable attrib) (mesh_indices mesh) ->
  readable attrib index ->
  0 <= offset -> 0 <= v < fv ->
  offset + fv <= Z.of_nat (length (mesh_indices mesh)) ->
  is_Some (make_vertex fzero fone fsub glm_cross glm_normalize attrib mesh offset fv v index).
Proof.
  intros Hall ((Hv0 & Hv1) & Hn & Ht) Hoff Hv Hfit. unfold make_vertex.
  destruct (read3_is_Some _ _ Hv0 Hv1) as [pos ->]. cbn.
  assert (Hnrm : is_Some
            (if bool_decide (0 <= normal_index index)
             then read3 (attrib_normals attrib) (normal_index index)
             else
               at_ (mesh_indices mesh) (offset + Z.rem (v - 1 + fv) fv)
               ≫= (fun p =>
                    at_ (mesh_indices mesh) (offset + Z.rem (v + 1) fv)
                    ≫= (fun n =>
                         read3 (attrib_vertices attrib) (vertex_index p)
                         ≫= (fun vn =>
                              read3 (attrib_vertices attrib) (vertex_index n)
                              ≫= (fun vp =>
                                   Some (glm_normalize
                                           (glm_cross (vec3_sub fsub vp pos)
                                                      (vec3_sub fsub vn pos))))))))).
  { case_bool_decide as Hni.
    - destruct Hn as [Hn|Hn]; [lia|]. by apply read3_is_Some.
    - pose proof (Z.rem_bound_pos (v - 1 + fv) fv ltac:(lia) ltac:(lia)) as Hp.
      pose proof (Z.rem_bound_pos (v + 1) fv ltac:(lia) ltac:(lia)) as Hq.
      destruct (at_is_Some (mesh_indices mesh) (offset + Z.rem (v - 1 + fv) fv)
                  ltac:(lia)) as [p Hp'].
      destruct (at_is_Some (mesh_indices mesh) (offset + Z.rem (v + 1) fv)
                  ltac:(lia)) as [n Hn'].
      rewrite Hp', Hn'. cbn.
      apply at_Some in Hp' as [_ Hp'], Hn' as [_ Hn'].
      eapply Forall_lookup_1 in Hp'; [|exact Hall].
      eapply Forall_lookup_1 in Hn'; [|exact Hall].
      destruct Hp' as ((Hp0 & Hp1) & _), Hn' as ((Hn0 & Hn1) & _).
      destruct (read3_is_Some _ _ Hp0 Hp1) as [vn ->].
      destruct (read3_is_Some _ _ Hn0 Hn1) as [vp ->].
      cbn. by eexists. }
  destruct Hnrm as [nrm ->]. cbn.
  case_bool_decide as Hti.
  - destruct Ht as [Ht|Ht]; [lia|].
    destruct (at_is_Some (attrib_texcoords attrib) (2 * texcoord_index index + 0)
                ltac:(lia)) as [t0 ->].
    destruct (at_is_Some (attrib_texcoords attrib) (2 * texcoord_index index + 1)
                ltac:(lia)) as [t1 ->].
    cbn. by eexists.
  - cbn. by eexists.
Qed.

Lemma face_loop_is_Some (attrib : attrib_t F) (mesh : mesh_t) (offset fv : Z)
    (n : nat) (v : Z) (s : submesh (F:=F)) :
  Forall (readable attrib) (mesh_indices mesh) ->
  0 <= offset -> 0 <= v -> v + Z.of_nat n = fv ->
  offset + fv <= Z.of_nat (length (mesh_indices mesh)) ->
  is_Some (face_loop feq fzero fone fsub glm_cross glm_normalize attrib mesh offset fv n v s).
Proof.
  intros Hall Hoff. revert v s. induction n as [|n IH]; intros v s Hv Hn Hfit.
  - cbn. by eexists.
  - cbn [face_loop]. unfold face_vertex at 1.
    destruct (at_is_Some (mesh_indices mesh) (offset + v) ltac:(lia)) as [k Hk].
    rewrite Hk. cbn.
    apply at_Some in Hk as [_ Hk].
    eapply Forall_lookup_1 in Hk; [|exact Hall].
    destruct (index_map s !! k) as [id|].
    + cbn. apply IH; lia.
    + destruct (make_vertex_is_Some attrib mesh offset fv v k Hall Hk Hoff
                  ltac:(lia) Hfit) as [vertex ->].
      cbn. apply IH; lia.
Qed.

Lemma faces_loop_is_Some (attrib : attrib_t F) (mesh : mesh_t) (n : nat) (f0 : nat)
    (offset : Z) (s : submesh (F:=F)) (out : list (Mesh F)) :
  Forall (fun fv => 0 <= fv) (num_face_vertices mesh) ->
  (length (num_face_vertices mesh) <= length (material_ids mesh))%nat ->
  Forall (readable attrib) (mesh_indices mesh) ->
  (n + f0 = length (num_face_vertices mesh))%nat ->
  0 <= offset ->
  offset + Z.of_nat (sum_list (map Z.to_nat (drop f0 (num_face_vertices mesh))))
  <= Z.of_nat (length (mesh_indices mesh)) ->
  is_Some (faces_loop feq fzero fone fsub glm_cross glm_normalize default_material
             attrib mesh n (Z.of_nat f0) offset s out).
Proof.
  intros Hfv0 Hids Hall. revert f0 offset s out.
  induction n as [|n IH]; intros f0 offset s out Hlen Hoff Hfit.
  - cbn. by eexists.
  - cbn [faces_loop].
    destruct (lookup_lt_is_Some_2 (num_face_vertices mesh) f0 ltac:(lia)) as [fv Hfv].
    replace (Z.of_nat f0 + 1) with (Z.of_nat (S f0)) by lia.
    rewrite !at_of_nat, Hfv. cbn.
    assert (Hfvpos : 0 <= fv).
    { eapply Forall_lookup_1 in Hfv0; [|exact Hfv]. done. }
    rewrite (drop_lookup_cons _ _ _ Hfv) in Hfit. cbn [map] in Hfit.
    rewrite sum_list_first in Hfit.
    destruct (face_loop_is_Some attrib mesh offset fv (Z.to_nat fv) 0 s Hall Hoff
                ltac:(lia) ltac:(lia) ltac:(lia)) as [s1 ->].
    cbn.
    assert (Hnext : forall s' out',
               is_Some (faces_loop feq fzero fone fsub glm_cross glm_normalize
                          default_material attrib mesh n (Z.of_nat (S f0))
                          (offset + fv) s' out')).
    { intros s' out'. apply IH; lia. }
    case_bool_decide as Hlast.
    + cbn. apply Hnext.
    + destruct (lookup_lt_is_Some_2 (material_ids mesh) f0 ltac:(lia)) as [m0 ->].
      destruct (lookup_lt_is_Some_2 (material_ids mesh) (S f0) ltac:(lia)) as [m1 ->].
      cbn. case_bool_decide; apply Hnext.
Qed.

Lemma shapes_loop_is_Some (attrib : attrib_t F) (shapes : list shape_t)
    (out : list (Mesh F)) :
  Forall (fun sh => traversable attrib (shape_mesh sh)) shapes ->
  is_Some (shapes_loop feq fzero fone fsub glm_cross glm_normalize default_material
             attrib shapes out).
Proof.
  revert out. induction shapes as [|shape shapes IH]; intros out Hwf.
  - cbn. by eexists.
  - apply Forall_cons in Hwf as [(Hfv & Hfit & Hids & Hall) Hwf].
    cbn [shapes_loop].
    change 0 with (Z.of_nat 0) at 1.
    destruct (faces_loop_is_Some attrib (shape_mesh shape)
                (length (num_face_vertices (shape_mesh shape))) 0 0 submesh_empty out
                Hfv Hids Hall ltac:(lia) ltac:(lia)) as [out' ->].
    { rewrite drop_0. unfold corner_count in Hfit. lia. }
    cbn. by apply IH.
Qed.

(** When the file exists, the parser accepts it, and every shape it hands
    over is traversable, load_model returns a model, and writes to stderr the
    parser's warning if there is one and nothing else. *)
Theorem load_model_returns_on_traversable_input
    (w : World F) (path : string) (reader : ObjReader F) :
  fs_exists w path = true ->
  ParseFromFile w path (parent_path w path) = Some reader ->
  Forall (fun sh => traversable (GetAttrib reader) (shape_mesh sh)) (GetShapes reader) ->
  exists model,
    load_model feq fzero fone fsub glm_cross glm_normalize default_material w path
    = (if bool_decide (Warning reader = "")
       then []
       else [Fprintf_stderr "Warning: %s" (Warning reader)],
       Some model).
Proof.
  intros Hex Hparse Hwf. unfold load_model. rewrite Hex, Hparse. cbn.
  destruct (shapes_loop_is_Some (GetAttrib reader) (GetShapes reader) [] Hwf)
    as [res ->].
  cbn. by eexists.
Qed.

(** ** When a vertex is appended *)

Lemma unequal_component (u v : Vertex F) (c : F) :
  c ∈ components u -> (forall b, feq c b = false) -> Vertex_eq feq u v = false.
Proof.
  intros Hc Hnan. unfold components in Hc.
  unfold Vertex_eq, vec3_eq, vec2_eq.
  repeat (apply elem_of_cons in Hc as [->|Hc];
          [rewrite Hnan; cbn; by rewrite ?andb_false_r|]).
  by apply elem_of_nil in Hc.
Qed.

(** Between two face corners, the vertex handed to lines 193-204 is appended
    to the vertex list exactly when no stored vertex compares equal to it:
    the look-up goes through [unique_vertices], whose keys are the stored
    vertices.  In particular a vertex with a component that compares equal to
    nothing (NaN) is appended whatever is stored, even itself; and a vertex
    that compares equal to a stored one leaves the list as it is. *)
Theorem vertex_appended_iff_none_stored_equal
    (index : index_t) (vertex : Vertex F) (s : submesh (F:=F)) :
  submesh_inv feq s ->
  ((forall key, key ∈ sm_vertices s -> Vertex_eq feq vertex key = false) ->
   sm_vertices (add_vertex feq index vertex s) = sm_vertices s ++ [vertex])
  /\ ((exists key, key ∈ sm_vertices s /\ Vertex_eq feq vertex key = true) ->
      sm_vertices (add_vertex feq index vertex s) = sm_vertices s)
  /\ ((exists c, c ∈ components vertex /\ forall b, feq c b = false) ->
      sm_vertices (add_vertex feq index vertex s) = sm_vertices s ++ [vertex]).
Proof.
  intros (_ & Hkeys & _).
  assert (Hmiss : (forall key, key ∈ sm_vertices s -> Vertex_eq feq vertex key = false) ->
                  sm_vertices (add_vertex feq index vertex s) = sm_vertices s ++ [vertex]).
  { intros Hnone. unfold add_vertex.
    destruct (find_vertex feq (unique_vertices s) vertex) as [id|] eqn:Hu; [|done].
    apply find_vertex_Some in Hu as (key & Hin & Heq).
    rewrite Hnone in Heq; [done|].
    rewrite <- Hkeys. apply list_elem_of_In, in_map_iff. by exists (key, id). }
  split_and!.
  - exact Hmiss.
  - intros (key & Hin & Heq). unfold add_vertex.
    destruct (find_vertex feq (unique_vertices s) vertex) as [id|] eqn:Hu; [done|].
    rewrite (find_vertex_None _ _ _ Hu key) in Heq; [done|].
    rewrite Hkeys. by apply list_elem_of_In.
  - intros (c & Hc & Hnan). apply Hmiss. intros key _.
    by eapply unequal_component.
Qed.

(** ** The submeshes of a loaded model *)

(** C9 (amended).  Whenever load_model returns a model, every submesh in it
    has all its indices below the number of its vertices, and no two of its
    stored vertices compare equal under [operator==] (componentwise float
    comparison, symmetric as IEEE comparison is): vertices that compare equal
    are stored once, and two indices that refer to vertices comparing equal
    are the same index.  Every face corner has its index, and the vertex that
    index refers to has the position and texture coordinate the corner's
    triple selects, and its normal when the triple names one, or values that
    compare equal to them (for parser output with face sizes that are not
    negative and at most 2^32 index triples per shape, so that ids are not
    reduced modulo 2^32). *)
Theorem load_model_submeshes_indexed_and_deduplicated
    (w : World F) (path : string) (reader : ObjReader F)
    (diags : list diag) (model : Model F) :
  (forall a b, feq a b = feq b a) ->
  fs_exists w path = true ->
  ParseFromFile w path (parent_path w path) = Some reader ->
  load_model feq fzero fone fsub glm_cross glm_normalize default_material w path
  = (diags, Some model) ->
  Forall (fun mesh =>
            Forall (fun i => 0 <= i < Z.of_nat (length (vertices mesh))) (indices mesh)
            /\ stored_once feq (vertices mesh)
            /\ (forall (i j : Z) (a b : Vertex F),
                  i ∈ indices mesh -> j ∈ indices mesh ->
                  vertices mesh !! Z.to_nat i = Some a ->
                  vertices mesh !! Z.to_nat j = Some b ->
                  Vertex_eq feq a b = true -> i = j))
         (meshes model)
  /\ (Forall (fun sh => Forall (fun fv => 0 <= fv) (num_face_vertices (shape_mesh sh))
                        /\ Z.of_nat (length (mesh_indices (shape_mesh sh))) <= 2 ^ 32)
             (GetShapes reader) ->
      Forall2 (refers feq fzero fone fsub (GetAttrib reader))
        (concat (map referenced (meshes model)))
        (concat (map (fun sh => corners (shape_mesh sh)) (GetShapes reader)))).
Proof.
  unfold load_model. intros Hsym -> -> Hrun. cbn in Hrun.
  injection Hrun as _ Hrun.
  destruct (shapes_loop _ _ _ _ _ _ _ _ _ _) as [res|] eqn:Hloop; [|done].
  cbn in Hrun. injection Hrun as <-. cbn [meshes]. split.
  - eapply shapes_loop_ok in Hloop; [|done|constructor].
    eapply Forall_impl; [exact Hloop|].
    intros mesh [Hidx Honce]. split_and!; [done | done |].
    intros i j a b Hi Hj Ha Hb Heq.
    rewrite Forall_forall in Hidx.
    pose proof (Hidx i Hi) as Hri. pose proof (Hidx j Hj) as Hrj.
    destruct (decide (Z.to_nat i = Z.to_nat j)) as [Hsame|Hdiff]; [lia|].
    by rewrite (Honce _ _ _ _ Ha Hb Hdiff) in Heq.
  - intros Hwf.
    eapply (shapes_loop_faithful _ _ _ _ []) in Hloop; [|done|constructor|constructor].
    by destruct Hloop.
Qed.

End mesh_counts.

(* ================================================================== *)
(** * Instances for load_model *)

Lemma weld_shapes_bounded :
  Forall (fun sh =>
            Forall (fun fv => 0 <= fv) (Mesh.num_face_vertices (Mesh.shape_mesh sh))
            /\ Z.of_nat (length (Mesh.mesh_indices (Mesh.shape_mesh sh))) <= 2 ^ 32)
         [Mesh.weld_shape].
Proof.
  constructor; [|constructor]. split.
  - repeat constructor; discriminate.
  - cbn. discriminate.
Defined.

Lemma load_model_submeshes_indexed_and_deduplicated_witness :
  (forall a b : Z, (a =? b) = (b =? a))
  /\ exists model mesh,
       Mesh.load_model_Z Mesh.weld_world "weld.obj" = ([], Some model)
       /\ Mesh.meshes model = [mesh]
       /\ length (Mesh.vertices mesh) = 4%nat
       /\ Mesh.indices mesh = [0; 1; 2; 0; 2; 3]
       /\ Forall (fun mesh =>
            Forall (fun i => 0 <= i < Z.of_nat (length (Mesh.vertices mesh)))
                   (Mesh.indices mesh)
            /\ Mesh.stored_once Z.eqb (Mesh.vertices mesh)
            /\ (forall (i j : Z) (a b : Mesh.Vertex Z),
                  i ∈ Mesh.indices mesh -> j ∈ Mesh.indices mesh ->
                  Mesh.vertices mesh !! Z.to_nat i = Some a ->
                  Mesh.vertices mesh !! Z.to_nat j = Some b ->
                  Mesh.Vertex_eq Z.eqb a b = true -> i = j))
         (Mesh.meshes model)
       /\ Forall2 (Mesh.refers Z.eqb 0 1 Z.sub Mesh.weld_attrib)
            (concat (map Mesh.referenced (Mesh.meshes model)))
            (Mesh.corners (Mesh.shape_mesh Mesh.weld_shape) ++ []).
Proof.
  split; [exact Z.eqb_sym|].
  eexists _, _. split; [vm_compute; reflexivity|].
  split; [reflexivity|]. split; [reflexivity|]. split; [reflexivity|].
  split.
  - apply (load_model_submeshes_indexed_and_deduplicated
             Z.eqb 0 1 Z.sub Mesh.Z_cross (fun v => v) Mesh.black
             Mesh.weld_world "weld.obj"
             (Mesh.mk_reader "" Mesh.weld_attrib [Mesh.weld_shape])
             [] _ Z.eqb_sym eq_refl eq_refl).
    vm_compute. reflexivity.
  - apply (load_model_submeshes_indexed_and_deduplicated
             Z.eqb 0 1 Z.sub Mesh.Z_cross (fun v => v) Mesh.black
             Mesh.weld_world "weld.obj"
             (Mesh.mk_reader "" Mesh.weld_attrib [Mesh.weld_shape])
             [] _ Z.eqb_sym eq_refl eq_refl).
    + vm_compute. reflexivity.
    + exact weld_shapes_bounded.
Defined.

(** C9 (counterexample).  A triangle two of whose corners coincide has a
    zero cross product at every corner, so every geometric normal is NaN.
    The first two corners give vertices with the same position, normal and
    texture coordinate; the look-up does not find the first when the second
    arrives, both are stored, and they are referenced through the indices 0
    and 1. *)
Lemma degenerate_face_vertices_stored_twice :
  exists model mesh,
    Mesh.load_model_fl Mesh.degenerate_world "degenerate.obj" = ([], Some model)
    /\ Mesh.meshes model = [mesh]
    /\ Mesh.indices mesh = [0; 1; 2]
    /\ Mesh.vertices mesh !! 0%nat
       = Some (Mesh.mk_Vertex
                 (glm.mk_vec3 (Mesh.Fin 0) (Mesh.Fin 0) (Mesh.Fin 0))
                 (glm.mk_vec3 Mesh.NaN Mesh.NaN Mesh.NaN)
                 (glm.mk_vec2 (Mesh.Fin 0) (Mesh.Fin 0)))
    /\ Mesh.vertices mesh !! 1%nat = Mesh.vertices mesh !! 0%nat
    /\ ~ NoDup (Mesh.vertices mesh).
Proof.
  eexists _, _. split; [vm_compute; reflexivity|].
  split; [reflexivity|]. split; [reflexivity|]. split; [reflexivity|].
  split; [reflexivity|].
  intros Hnd. apply NoDup_cons in Hnd as [Hnotin _]. apply Hnotin. left.
Defined.


Lemma load_model_one_index_per_corner_witness :
  exists model,
    Mesh.load_model_Z Mesh.split_world "split.obj" = ([], Some model)
    /\ Mesh.total_indices (Mesh.meshes model) = 12%nat.
Proof.
  eexists. split; [vm_compute; reflexivity|].
  apply (load_model_one_index_per_corner
           Z.eqb 0 1 Z.sub Mesh.Z_cross (fun v => v) Mesh.black
           Mesh.split_world "split.obj"
           (Mesh.mk_reader "" Mesh.quad_attrib [Mesh.quad_shape; Mesh.split_shape])
           [] _ eq_refl eq_refl).
  vm_compute. reflexivity.
Defined.

Lemma load_model_one_submesh_per_material_run_witness :
  exists model,
    Mesh.load_model_Z Mesh.split_world "split.obj" = ([], Some model)
    /\ length (Mesh.meshes model) = 3%nat.
Proof.
  eexists. split; [vm_compute; reflexivity|].
  apply (load_model_one_submesh_per_material_run
           Z.eqb 0 1 Z.sub Mesh.Z_cross (fun v => v) Mesh.black
           Mesh.split_world "split.obj"
           (Mesh.mk_reader "" Mesh.quad_attrib [Mesh.quad_shape; Mesh.split_shape])
           [] _ eq_refl eq_refl).
  vm_compute. reflexivity.
Defined.

Lemma quad_shapes_bounded :
  Forall (fun sh =>
            Forall (fun fv => 0 <= fv) (Mesh.num_face_vertices (Mesh.shape_mesh sh))
            /\ Z.of_nat (length (Mesh.mesh_indices (Mesh.shape_mesh sh))) <= 2 ^ 32)
         [Mesh.quad_shape].
Proof.
  constructor; [|constructor]. split.
  - repeat constructor; discriminate.
  - cbn. discriminate.
Defined.

Lemma load_model_references_carry_corner_data_witness :
  exists model,
    Mesh.load_model_Z Mesh.quad_world "quad.obj" = ([], Some model)
    /\ Forall2 (Mesh.refers Z.eqb 0 1 Z.sub Mesh.quad_attrib)
         (concat (map Mesh.referenced (Mesh.meshes model)))
         (Mesh.corners (Mesh.shape_mesh Mesh.quad_shape) ++ []).
Proof.
  eexists. split; [vm_compute; reflexivity|].
  apply (load_model_references_carry_corner_data
           Z.eqb 0 1 Z.sub Mesh.Z_cross (fun v => v) Mesh.black
           Mesh.quad_world "quad.obj"
           (Mesh.mk_reader "" Mesh.quad_attrib [Mesh.quad_shape])
           [] _ eq_refl eq_refl quad_shapes_bounded).
  vm_compute. reflexivity.
Defined.

Lemma load_model_vertices_all_referenced_witness :
  exists model,
    Mesh.load_model_Z Mesh.quad_world "quad.obj" = ([], Some model)
    /\ Forall (fun m => forall j, (j < length (Mesh.vertices m))%nat ->
                                  Z.of_nat j ∈ Mesh.indices m)
         (Mesh.meshes model).
Proof.
  eexists. split; [vm_compute; reflexivity|].
  apply (load_model_vertices_all_referenced
           Z.eqb 0 1 Z.sub Mesh.Z_cross (fun v => v) Mesh.black
           Mesh.quad_world "quad.obj"
           (Mesh.mk_reader "" Mesh.quad_attrib [Mesh.quad_shape])
           [] _ eq_refl eq_refl quad_shapes_bounded).
  vm_compute. reflexivity.
Defined.

Lemma quad_shape_traversable :
  Forall (fun sh => Mesh.traversable Mesh.quad_attrib (Mesh.shape_mesh sh))
         [Mesh.quad_shape].
Proof.
  constructor; [|constructor]. unfold Mesh.traversable. split_and!.
  - repeat constructor; discriminate.
  - cbn. lia.
  - cbn. lia.
  - repeat constructor; cbn; lia.
Defined.

Lemma load_model_returns_on_traversable_input_witness :
  Forall (fun sh => Mesh.traversable Mesh.quad_attrib (Mesh.shape_mesh sh))
         [Mesh.quad_shape]
  /\ exists model, Mesh.load_model_Z Mesh.quad_world "quad.obj" = ([], Some model).
Proof.
  split; [exact quad_shape_traversable|].
  exact (load_model_returns_on_traversable_input
           Z.eqb 0 1 Z.sub Mesh.Z_cross (fun v => v) Mesh.black
           Mesh.quad_world "quad.obj"
           (Mesh.mk_reader "" Mesh.quad_attrib [Mesh.quad_shape])
           eq_refl eq_refl quad_shape_traversable).
Defined.

Lemma vertex_appended_iff_none_stored_equal_witness :
  Mesh.submesh_inv Mesh.fl_eq
    (Mesh.add_vertex Mesh.fl_eq (Mesh.mk_index 0 (-1) (-1)) Mesh.nan_vertex
       Mesh.submesh_empty)
  /\ Mesh.sm_vertices
       (Mesh.add_vertex Mesh.fl_eq (Mesh.mk_index 1 (-1) (-1)) Mesh.nan_vertex
          (Mesh.add_vertex Mesh.fl_eq (Mesh.mk_index 0 (-1) (-1)) Mesh.nan_vertex
             Mesh.submesh_empty))
     = [Mesh.nan_vertex; Mesh.nan_vertex].
Proof.
  assert (Hinv : Mesh.submesh_inv Mesh.fl_eq
                   (Mesh.add_vertex Mesh.fl_eq (Mesh.mk_index 0 (-1) (-1))
                      Mesh.nan_vertex Mesh.submesh_empty)).
  { apply add_vertex_inv, submesh_empty_inv. }
  split; [exact Hinv|].
  apply (vertex_appended_iff_none_stored_equal
           Mesh.fl_eq (Mesh.mk_index 1 (-1) (-1)) Mesh.nan_vertex _ Hinv).
  exists Mesh.NaN. split; [|reflexivity].
  unfold Mesh.components. cbn. repeat constructor.
Defined.

(* ================================================================== *)
(** * Further properties of the render pipeline *)

Section engine_more.
Import Engine.
Context {F : Type}.

Ltac run_M :=
  lazy beta iota zeta delta
    [frame main main_init render_pt_pipeline render_ui_pipeline environment_map_loading
     allocate_gl_framebuffer gen_gbuffer_texture allocate_pt_materials
     task_finishes future_valid future_ready_now future_get vector_at
     glGenFramebuffers glGenTextures glActiveTexture glBindTexture glTexImage2D
     glTexParameteri glCheckFramebufferStatus modify bound_texture
     set_next_texture set_next_framebuffer set_active_texture
     set_texture_binding set_images set_pt set_fut
     mbind M_MBind M_bind mret M_MRet M_ret
     emit emit_all get put undefined
     next_texture next_framebuffer active_texture texture_binding images pt fut
     not_complete];
  cbn [app materials_texture environment_map render_target default from_option id].

Ltac run_frame :=
  run_M; rewrite ?draw_loop_run; run_M; rewrite ?lookup_insert_eq; run_M.

Ltac units_differ :=
  let Heq := fresh in intros Heq; vm_compute in Heq; discriminate Heq.

(** The geometry pass: after binding the framebuffer and clearing it, and
    before the compute program is selected, the frame issues for every
    buffer, in the order of the list, its material index, its vertex array
    and one indexed draw of its count; nothing after that point draws or
    clears, and the last thing issued is the dispatch. *)
Theorem geometry_pass_draws_in_load_order
    (fb : Framebuffer) (buffers : list GLBuffers) (sp pp : Z) (b0 : GLBuffers)
    (s : state F) :
  buffers !! 0%nat = Some b0 ->
  exists post s',
    render_pt_pipeline fb buffers sp pp s
    = ([BindFramebuffer (framebuffer fb); ClearColor; Clear; UseProgram sp;
        SetMat4 sp "model"; SetMat4 sp "view"; SetMat4 sp "projection";
        BindVertexArray (vao b0)]
       ++ flat_map (fun b => [SetUint sp "material_index" (source_material_index b);
                              BindVertexArray (vao b);
                              DrawElements (count b)]) buffers
       ++ UseProgram pp :: post,
       Some (tt, s'))
    /\ List.filter is_draw post = []
    /\ List.filter is_clear post = []
    /\ last post = Some (DispatchCompute RENDER_WIDTH RENDER_HEIGHT 1).
Proof.
  intros Hb. destruct s as [nt nf act tb im p f].
  unfold render_pt_pipeline, vector_at. rewrite Hb.
  destruct f as [|[[data w] h]|]; run_frame;
    (eexists _, _; split; [reflexivity|]); repeat split.
Qed.

(** What the compute stage finds bound when it is dispatched.  Units 1, 2
    and 4 hold the position, normal and material-index images of the
    framebuffer handle.  Unit 3 holds the materials texture and unit 5 holds
    no texture while the future is pending; in the frame that takes the
    decoded buffer both unit 3 and unit 5 hold no texture; once the future
    is invalid unit 3 holds the materials texture and unit 5 the environment
    map. *)
Theorem bindings_at_dispatch
    (fb : Framebuffer) (buffers : list GLBuffers) (sp pp : Z) (b0 : GLBuffers)
    (s : state F) :
  buffers !! 0%nat = Some b0 ->
  exists t s',
    render_pt_pipeline fb buffers sp pp s = (t, Some (tt, s'))
    /\ last t = Some (DispatchCompute RENDER_WIDTH RENDER_HEIGHT 1)
    /\ bound_on s' GL_TEXTURE1 = Some (g_position fb)
    /\ bound_on s' GL_TEXTURE2 = Some (g_normal fb)
    /\ bound_on s' GL_TEXTURE4 = Some (g_material_index fb)
    /\ bound_on s' GL_TEXTURE3
       = Some (match fut s with Ready _ => 0 | _ => materials_texture (pt s) end)
    /\ bound_on s' GL_TEXTURE5
       = Some (match fut s with Invalid => environment_map (pt s) | _ => 0 end).
Proof.
  intros Hb. destruct s as [nt nf act tb im p f].
  unfold render_pt_pipeline, vector_at. rewrite Hb.
  destruct f as [|[[data w] h]|]; run_frame;
    (eexists _, _; split; [reflexivity|]);
    (split; [by rewrite !last_cons, last_app|]);
    unfold bound_on; cbn [texture_binding fut pt];
    split_and!;
    repeat (rewrite lookup_insert_ne by units_differ);
    by rewrite lookup_insert_eq.
Qed.


(** A frame that does not take the decoded buffer (the future is pending or
    already invalid) leaves a state from which the next such frame issues
    exactly the same calls and ends in exactly the same state: names, images,
    globals and bindings do not drift from frame to frame. *)
Theorem steady_frame_repeats
    (fb : Framebuffer) (buffers : list GLBuffers) (sp pp : Z) (b0 : GLBuffers)
    (s : state F) :
  buffers !! 0%nat = Some b0 ->
  fut s = Pending \/ fut s = Invalid ->
  exists t s',
    render_pt_pipeline fb buffers sp pp s = (t, Some (tt, s'))
    /\ render_pt_pipeline fb buffers sp pp s' = (t, Some (tt, s'))
    /\ next_texture s' = next_texture s
    /\ next_framebuffer s' = next_framebuffer s
    /\ images s' = images s
    /\ pt s' = pt s
    /\ fut s' = fut s.
Proof.
  intros Hb Hfut. destruct s as [nt nf act tb im [mt em rt] f]. cbn in Hfut.
  unfold render_pt_pipeline, vector_at. rewrite Hb.
  destruct Hfut as [-> | ->]; run_frame;
    (eexists _, _; split; [reflexivity|]);
    (split; [|by repeat split]);
    run_frame; do 3 f_equal; f_equal;
    apply map_eq; intros u;
    rewrite !lookup_insert; repeat case_decide; reflexivity.
Qed.

(** allocate_gl_framebuffer on a complete framebuffer: the handle holds the
    framebuffer name and the first three of the four texture names it took,
    in the order position, normal, material index; these are attached to
    colour attachments 0, 1 and 2 and the fourth texture to the depth
    attachment; and all four images have the render resolution. *)
Theorem complete_framebuffer_layout (s : state F) :
  exists t s',
    allocate_gl_framebuffer GL_FRAMEBUFFER_COMPLETE s
    = (t, Some (mk_Framebuffer (next_framebuffer s) (next_texture s)
                  (next_texture s + 1) (next_texture s + 2), s'))
    /\ List.filter is_attach t
       = [FramebufferTexture2D GL_COLOR_ATTACHMENT0 (next_texture s);
          FramebufferTexture2D GL_COLOR_ATTACHMENT1 (next_texture s + 1);
          FramebufferTexture2D GL_COLOR_ATTACHMENT2 (next_texture s + 2);
          FramebufferTexture2D GL_DEPTH_ATTACHMENT (next_texture s + 3)]
    /\ next_texture s' = next_texture s + 4
    /\ next_framebuffer s' = next_framebuffer s + 1
    /\ (forall i, 0 <= i < 4 ->
          images s' !! (next_texture s + i) = Some (RENDER_WIDTH, RENDER_HEIGHT))
    /\ pt s' = pt s.
Proof.
  destruct s as [nt nf act tb im p f]. run_frame.
  replace (nt + 1 + 1) with (nt + 2) by lia.
  replace (nt + 2 + 1) with (nt + 3) by lia.
  eexists _, _. split; [reflexivity|]. cbn [next_texture next_framebuffer images pt].
  split; [reflexivity|]. split; [lia|]. split; [lia|]. split; [|reflexivity].
  intros i Hi.
  assert (Hcases : i = 0 \/ i = 1 \/ i = 2 \/ i = 3) by lia.
  destruct Hcases as [-> | [-> | [-> | ->]]];
    rewrite ?Z.add_0_r;
    repeat (rewrite lookup_insert_ne by lia);
    by rewrite lookup_insert_eq.
Qed.


Ltac filter_trace :=
  cbn [List.filter is_upload is_get is_free is_gen_texture is_dispatch is_bind_image
       is_draw is_bind_framebuffer is_stderr is_gen_framebuffer is_attach is_clear app];
  rewrite ?List.filter_app, ?filter_draw_events_draws,
    ?filter_draw_events by reflexivity;
  cbn [List.filter is_upload is_get is_free is_gen_texture is_dispatch is_bind_image
       is_draw is_bind_framebuffer is_stderr is_gen_framebuffer is_attach is_clear
       app length];
  rewrite ?app_nil_r; try reflexivity.

(** What one iteration of the main loop takes from the GL name spaces and
    does to the globals. *)
Lemma frame_accounting (l : LoadEXR_out F) (fb : Framebuffer) (buffers : list GLBuffers)
    (sp pp : Z) (finished : bool) (s : state F) (b0 : GLBuffers) :
  buffers !! 0%nat = Some b0 ->
  exists t s',
    frame l fb buffers sp pp finished s = (t, Some (tt, s'))
    /\ next_texture s' = next_texture s + Z.of_nat (handoffs s s')
    /\ next_framebuffer s' = next_framebuffer s
    /\ List.filter is_gen_framebuffer t = []
    /\ materials_texture (pt s') = materials_texture (pt s)
    /\ (environment_map (pt s') = environment_map (pt s)
        \/ next_texture s <= environment_map (pt s') < next_texture s').
Proof.
  intros Hb. destruct s as [nt nf act tb im p f].
  destruct f as [|[[data w] h]|], finished; unfold frame;
    try (unfold task_finishes, exr_loader; cbn; case_bool_decide);
    unfold render_pt_pipeline, vector_at; rewrite Hb; run_frame;
    (eexists _, _; split; [reflexivity|]);
    unfold handoffs;
    cbn [fut pt next_texture next_framebuffer valid andb negb materials_texture
         environment_map];
    split_and!; try filter_trace; try lia; try (left; reflexivity); right; lia.
Qed.

Lemma main_loop_accounting (l : LoadEXR_out F) (fb : Framebuffer)
    (buffers : list GLBuffers) (sp pp : Z) (schedule : list bool) (s : state F)
    (b0 : GLBuffers) :
  buffers !! 0%nat = Some b0 ->
  exists t s',
    main_loop l fb buffers sp pp schedule s = (t, Some (tt, s'))
    /\ next_texture s <= next_texture s'
    /\ next_texture s' = next_texture s + Z.of_nat (handoffs s s')
    /\ next_framebuffer s' = next_framebuffer s
    /\ List.filter is_gen_framebuffer t = []
    /\ materials_texture (pt s') = materials_texture (pt s)
    /\ (environment_map (pt s') = environment_map (pt s)
        \/ next_texture s <= environment_map (pt s') < next_texture s').
Proof.
  intros Hb. revert s. induction schedule as [|finished rest IH]; intros s.
  - exists [], s. unfold handoffs. destruct (valid (fut s)); cbn;
      split_and!; try done; try lia; by left.
  - destruct (frame_accounting l fb buffers sp pp finished s b0 Hb)
      as (t1 & s1 & Hrun1 & Hnt1 & Hnf1 & Hgf1 & Hmt1 & Hem1).
    destruct (frame_run l fb buffers sp pp finished s b0 Hb)
      as (t1' & s1' & Hrun1' & _ & _ & _ & _ & Hv1 & _).
    rewrite Hrun1 in Hrun1'. injection Hrun1' as <- <-.
    destruct (IH s1) as (t2 & s2 & Hrun2 & Hle2 & Hnt2 & Hnf2 & Hgf2 & Hmt2 & Hem2).
    destruct (main_loop_run l fb buffers sp pp rest s1 b0 Hb)
      as (t2' & s2' & Hrun2' & _ & _ & _ & _ & Hv2 & _).
    rewrite Hrun2 in Hrun2'. injection Hrun2' as <- <-.
    exists (t1 ++ t2), s2.
    split; [by eapply main_loop_cons|].
    pose proof (handoffs_trans s s1 s2 Hv1 Hv2) as Htr.
    rewrite List.filter_app, Hgf1, Hgf2.
    split_and!; try done; lia.
Qed.

(** After set-up on a complete framebuffer and any number of frames, the
    three G-buffer images and the render target all have the render
    resolution, and the five textures the pipeline reads and writes
    (position, normal, material index, materials, render target) are five
    different textures. *)
Theorem gbuffer_and_target_share_resolution
    (fone : F) (all : list (Mesh.Material F)) (l : LoadEXR_out F)
    (buffers : list GLBuffers) (sp pp : Z) (b0 : GLBuffers)
    (schedule : list bool) (s : state F) :
  buffers !! 0%nat = Some b0 ->
  exists t0 fb s0 t s',
    main_init fone GL_FRAMEBUFFER_COMPLETE all s = (t0, Some (fb, s0))
    /\ main_loop l fb buffers sp pp schedule s0 = (t, Some (tt, s'))
    /\ images s' !! g_position fb = Some (RENDER_WIDTH, RENDER_HEIGHT)
    /\ images s' !! g_normal fb = Some (RENDER_WIDTH, RENDER_HEIGHT)
    /\ images s' !! g_material_index fb = Some (RENDER_WIDTH, RENDER_HEIGHT)
    /\ images s' !! render_target (pt s') = Some (RENDER_WIDTH, RENDER_HEIGHT)
    /\ NoDup [g_position fb; g_normal fb; g_material_index fb;
              materials_texture (pt s'); render_target (pt s')].
Proof.
  intros Hb. destruct s as [nt nf act tb im p f].
  assert (Hinit : exists t0 s0,
             main_init fone GL_FRAMEBUFFER_COMPLETE all
               (mk_state nt nf act tb im p f)
             = (t0, Some (mk_Framebuffer nf nt (nt + 1) (nt + 2), s0))
             /\ next_texture s0 = nt + 6
             /\ materials_texture (pt s0) = nt + 5
             /\ render_target (pt s0) = nt + 4
             /\ (forall i, 0 <= i < 5 -> i <> 3 ->
                   images s0 !! (nt + i) = Some (RENDER_WIDTH, RENDER_HEIGHT))).
  { run_frame.
    replace (nt + 1 + 1) with (nt + 2) by lia.
    replace (nt + 2 + 1) with (nt + 3) by lia.
    replace (nt + 3 + 1) with (nt + 4) by lia.
    replace (nt + 4 + 1) with (nt + 5) by lia.
    replace (nt + 5 + 1) with (nt + 6) by lia.
    eexists _, _. split; [reflexivity|].
    cbn [next_texture pt materials_texture render_target images].
    split_and!; try reflexivity.
    intros i Hi Hi3.
    assert (Hcases : i = 0 \/ i = 1 \/ i = 2 \/ i = 4) by lia.
    destruct Hcases as [-> | [-> | [-> | ->]]];
      rewrite ?Z.add_0_r;
      repeat (rewrite lookup_insert_ne by lia);
      by rewrite lookup_insert_eq. }
  destruct Hinit as (t0 & s0 & Hinit & Hnt0 & Hmt0 & Hrt0 & Him0).
  destruct (main_loop_accounting l (mk_Framebuffer nf nt (nt + 1) (nt + 2))
              buffers sp pp schedule s0 b0 Hb)
    as (t & s' & Hrun & _ & _ & _ & _ & Hmt & _).
  destruct (main_loop_run l (mk_Framebuffer nf nt (nt + 1) (nt + 2))
              buffers sp pp schedule s0 b0 Hb)
    as (t' & s'' & Hrun' & _ & _ & _ & _ & _ & _ & _ & _ & Hrt & _ & Him).
  rewrite Hrun in Hrun'. injection Hrun' as <- <-.
  exists t0, (mk_Framebuffer nf nt (nt + 1) (nt + 2)), s0, t, s'.
  split; [exact Hinit|]. split; [exact Hrun|].
  cbn [g_position g_normal g_material_index]. rewrite Hrt, Hmt, Hrt0, Hmt0.
  split_and!.
  - rewrite Him by lia. rewrite <- (Z.add_0_r nt) at 1. apply Him0; lia.
  - rewrite Him by lia. apply Him0; lia.
  - rewrite Him by lia. apply Him0; lia.
  - rewrite Him by lia. apply Him0; lia.
  - repeat (apply NoDup_cons; split;
            [rewrite ?elem_of_cons, elem_of_nil; lia|]).
    apply NoDup_nil. done.
Qed.

End engine_more.

Lemma geometry_pass_draws_in_load_order_witness :
  [Engine.mk_GLBuffers 1 6 0; Engine.mk_GLBuffers 2 9 1] !! 0%nat
  = Some (Engine.mk_GLBuffers 1 6 0)
  /\ exists post s',
       Engine.render_pt_pipeline Engine.some_framebuffer
         [Engine.mk_GLBuffers 1 6 0; Engine.mk_GLBuffers 2 9 1] 3 4
         Engine.pending_state
       = ([Engine.BindFramebuffer 1; Engine.ClearColor; Engine.Clear; Engine.UseProgram 3;
           Engine.SetMat4 3 "model"; Engine.SetMat4 3 "view";
           Engine.SetMat4 3 "projection"; Engine.BindVertexArray 1;
           Engine.SetUint 3 "material_index" 0; Engine.BindVertexArray 1;
           Engine.DrawElements 6;
           Engine.SetUint 3 "material_index" 1; Engine.BindVertexArray 2;
           Engine.DrawElements 9; Engine.UseProgram 4] ++ post,
          Some (tt, s'))
       /\ List.filter Engine.is_draw post = [].
Proof.
  split; [reflexivity|].
  destruct (geometry_pass_draws_in_load_order
              Engine.some_framebuffer
              [Engine.mk_GLBuffers 1 6 0; Engine.mk_GLBuffers 2 9 1] 3 4
              (Engine.mk_GLBuffers 1 6 0)
              Engine.pending_state eq_refl)
    as (post & s' & Hrun & Hdraw & _).
  exists post, s'. split; [exact Hrun | exact Hdraw].
Defined.

Lemma bindings_at_dispatch_witness :
  Engine.one_buffer !! 0%nat = Some (Engine.mk_GLBuffers 1 6 0)
  /\ exists t s',
       Engine.render_pt_pipeline Engine.some_framebuffer Engine.one_buffer 3 4
         Engine.pending_state = (t, Some (tt, s'))
       /\ Engine.bound_on s' Engine.GL_TEXTURE3 = Some 6
       /\ Engine.bound_on s' Engine.GL_TEXTURE5 = Some 0.
Proof.
  split; [reflexivity|].
  destruct (bindings_at_dispatch
              Engine.some_framebuffer Engine.one_buffer 3 4 (Engine.mk_GLBuffers 1 6 0)
              Engine.pending_state eq_refl)
    as (t & s' & Hrun & _ & _ & _ & _ & H3 & H5).
  exists t, s'. split; [exact Hrun|]. split; [exact H3 | exact H5].
Defined.

Lemma steady_frame_repeats_witness :
  Engine.one_buffer !! 0%nat = Some (Engine.mk_GLBuffers 1 6 0)
  /\ (Engine.fut Engine.pending_state = Engine.Pending
      \/ Engine.fut Engine.pending_state = Engine.Invalid)
  /\ exists t s',
       Engine.render_pt_pipeline Engine.some_framebuffer Engine.one_buffer 3 4
         Engine.pending_state = (t, Some (tt, s'))
       /\ Engine.render_pt_pipeline Engine.some_framebuffer Engine.one_buffer 3 4 s'
          = (t, Some (tt, s')).
Proof.
  split; [reflexivity|]. split; [left; reflexivity|].
  destruct (steady_frame_repeats
              Engine.some_framebuffer Engine.one_buffer 3 4 (Engine.mk_GLBuffers 1 6 0)
              Engine.pending_state eq_refl (or_introl eq_refl))
    as (t & s' & Hrun & Hagain & _).
  exists t, s'. split; [exact Hrun | exact Hagain].
Defined.

Lemma gbuffer_and_target_share_resolution_witness :
  Engine.one_buffer !! 0%nat = Some (Engine.mk_GLBuffers 1 6 0)
  /\ exists t0 fb s0 t s',
       Engine.main_init 1 Engine.GL_FRAMEBUFFER_COMPLETE [Mesh.black] Engine.initial_state
       = (t0, Some (fb, s0))
       /\ Engine.main_loop Engine.loaded_exr fb Engine.one_buffer 3 4 [true; false] s0
          = (t, Some (tt, s'))
       /\ Engine.images s' !! Engine.g_position fb
          = Some (Engine.RENDER_WIDTH, Engine.RENDER_HEIGHT)
       /\ Engine.images s' !! Engine.render_target (Engine.pt s')
          = Some (Engine.RENDER_WIDTH, Engine.RENDER_HEIGHT).
Proof.
  split; [reflexivity|].
  destruct (gbuffer_and_target_share_resolution
              1 [Mesh.black] Engine.loaded_exr Engine.one_buffer 3 4
              (Engine.mk_GLBuffers 1 6 0) [true; false] Engine.initial_state eq_refl)
    as (t0 & fb & s0 & t & s' & Hinit & Hrun & Hp & _ & _ & Hrt & _).
  exists t0, fb, s0, t, s'. split_and!; assumption.
Defined.

(* ================================================================== *)
(** * Further properties of the input handlers *)

Section input_more.
Import Camera.
#[local] Open Scope Q_scope.
Variables (to_double to_float : Q -> Q).

Lemma handle_frozen (s : pointer) (i : input) :
  dragging s = false ->
  is_left_press i = false \/ (viewport_hovered s = false /\ is_hover_on i = false) ->
  let s' := handle to_double to_float s i in
  dragging s' = false /\ yaw s' = yaw s /\ pitch s' = pitch s
  /\ (viewport_hovered s = false -> is_hover_on i = false -> viewport_hovered s' = false).
Proof.
  intros Hd Hi. destruct i as [xpos ypos|button action|h]; cbn.
  - unfold mouse_callback. rewrite Hd. cbn. done.
  - unfold mouse_button_callback.
    destruct Hi as [Hi|[Hh _]].
    + cbn in Hi. rewrite Hi. cbn.
      destruct (_ || _); cbn; done.
    + rewrite Hh, andb_false_r. cbn. rewrite orb_true_r. cbn. done.
  - split_and!; try done. intros _ Hh. by destruct h.
Qed.

(** From a state that is not dragging, yaw and pitch stay what they are
    through any inputs among which there is no left-button press, and also
    through any inputs that never report the viewport hovered if it is not
    hovered to begin with: the orientation only changes after a left press
    over the viewport. *)
Theorem orientation_frozen_without_hovered_left_press
    (inputs : list input) (s : pointer) :
  dragging s = false ->
  Forall (fun i => is_left_press i = false) inputs
  \/ (viewport_hovered s = false /\ Forall (fun i => is_hover_on i = false) inputs) ->
  let s' := run to_double to_float inputs s in
  dragging s' = false /\ yaw s' = yaw s /\ pitch s' = pitch s.
Proof.
  revert s. induction inputs as [|i inputs IH]; intros s Hd Hin; [done|].
  cbn. unfold run in IH. cbn in IH.
  assert (Hi : is_left_press i = false
               \/ (viewport_hovered s = false /\ is_hover_on i = false)).
  { destruct Hin as [Hin|[Hh Hin]].
    - left. by apply Forall_cons in Hin as [? _].
    - right. split; [done|]. by apply Forall_cons in Hin as [? _]. }
  destruct (handle_frozen s i Hd Hi) as (Hd' & Hy & Hp & Hh').
  destruct (IH (handle to_double to_float s i) Hd') as (Hd'' & Hy' & Hp').
  { destruct Hin as [Hin|[Hh Hin]].
    - left. by apply Forall_cons in Hin as [_ ?].
    - apply Forall_cons in Hin as [Hi0 Hin]. right. split; [by apply Hh'|done]. }
  split_and!; [done | by rewrite Hy' | by rewrite Hp'].
Qed.

(** The first cursor event of the program, with exact arithmetic, changes
    neither yaw nor a pitch that is within bounds, wherever the cursor is:
    the reference point is set to the cursor before the offsets are taken. *)
Theorem first_cursor_event_does_not_jump (s : pointer) (xpos ypos : Q) :
  first_mouse s = true -> -89 <= pitch s <= 89 ->
  let s' := mouse_callback exact exact s xpos ypos in
  yaw s' == yaw s /\ pitch s' == pitch s
  /\ last_x s' = xpos /\ last_y s' = ypos /\ first_mouse s' = false.
Proof.
  intros Hf Hp. unfold mouse_callback. rewrite Hf.
  destruct (dragging s); cbn; [|by split_and!].
  unfold exact, sensitivity. split_and!; try done; [lra|].
  unfold clamp_pitch.
  destruct (Qlt_le_dec 89 _) as [H1|H1]; [lra|].
  destruct (Qlt_le_dec _ (-89)) as [H2|H2]; lra.
Qed.

End input_more.

Section movement_facts.
Import Movement.
#[local] Open Scope Q_scope.

(** The translation passed to glm::translate is, on each axis, the speed
    times the difference of the two keys of that axis (D and A, E and Q, S
    and W), so that two opposite keys held together cancel; and no
    translation is applied when the viewport is not focused. *)
Theorem movement_is_net_key_state (k : keys) :
  glm.x (diff_of k) == speed * (pressed (key_D k) - pressed (key_A k))
  /\ glm.y (diff_of k) == speed * (pressed (key_E k) - pressed (key_Q k))
  /\ glm.z (diff_of k) == speed * (pressed (key_S k) - pressed (key_W k))
  /\ camera_movement true k = Some (diff_of k)
  /\ camera_movement false k = None.
Proof.
  destruct k as [[] [] [] [] [] []]; cbn; unfold speed;
    split_and!; try reflexivity; lra.
Qed.

End movement_facts.

(* ================================================================== *)
(** * Properties of the frame-time window *)

Section frame_time_facts.
Import FrameTimes.
#[local] Open Scope Q_scope.
Variable to_float : Q -> Q.

Lemma erase_old_keeps_last (cutoff : Q) (frames : list frame_time) (new : frame_time) :
  cutoff <= fst new ->
  erase_old cutoff (frames ++ [new]) = erase_old cutoff frames ++ [new].
Proof.
  intros Hnew. induction frames as [|f frames IH]; cbn.
  - destruct (Qlt_le_dec (fst new) cutoff); [lra|done].
  - destruct (Qlt_le_dec (fst f) cutoff); [exact IH|done].
Qed.

Lemma erase_old_suffix (cutoff : Q) (frames : list frame_time) :
  exists dropped,
    frames = dropped ++ erase_old cutoff frames
    /\ Forall (fun f => fst f < cutoff) dropped.
Proof.
  induction frames as [|f frames (dropped & Heq & Hold)]; cbn.
  - by exists [].
  - destruct (Qlt_le_dec (fst f) cutoff) as [Hlt|Hge].
    + exists (f :: dropped). split; [cbn; by f_equal|]. by constructor.
    + by exists [].
Qed.

Lemma nondecreasing_app_last (times : list Q) (t : Q) :
  nondecreasing times -> Forall (fun u => u <= t) times ->
  nondecreasing (times ++ [t]).
Proof.
  induction times as [|u times IH]; cbn; intros Hs Hle.
  - split; constructor.
  - destruct Hs as [Hu Hs]. apply Forall_cons in Hle as [Hut Hle]. split.
    + apply Forall_app. split; [done|]. by constructor.
    + by apply IH.
Qed.

Lemma erase_old_sorted (cutoff : Q) (frames : list frame_time) :
  nondecreasing (map fst frames) ->
  nondecreasing (map fst (erase_old cutoff frames))
  /\ Forall (fun f => cutoff <= fst f) (erase_old cutoff frames).
Proof.
  induction frames as [|f frames IH]; cbn; intros Hs.
  - split; [done|constructor].
  - destruct Hs as [Hf Hs].
    destruct (Qlt_le_dec (fst f) cutoff) as [Hlt|Hge]; [by apply IH|].
    split; [done|]. constructor; [done|].
    assert (Hf' : Forall (fun g => fst f <= fst g) frames)
      by (by apply List.Forall_map).
    eapply Forall_impl; [exact Hf'|].
    intros g Hg. cbn in Hg. lra.
Qed.

(** The window is never empty after a sample is recorded: provided the
    rounded cutoff [time - 5] does not exceed [time], the new sample is kept
    as the last element, what precedes it is a tail of the old window, only
    samples older than the cutoff were dropped, and the plot that follows
    finds a front element to read. *)
Theorem recorded_frame_is_kept (frames : list frame_time) (time fps : Q) :
  to_float (time - 5) <= time ->
  exists dropped kept,
    frames = dropped ++ kept
    /\ record_frame to_float frames time fps = kept ++ [(time, fps)]
    /\ Forall (fun f => fst f < to_float (time - 5)) dropped
    /\ is_Some (plot_times to_float (record_frame to_float frames time fps)).
Proof.
  intros Hcut. unfold record_frame.
  rewrite erase_old_keeps_last by done.
  destruct (erase_old_suffix (to_float (time - 5)) frames) as (dropped & Heq & Hold).
  exists dropped, (erase_old (to_float (time - 5)) frames).
  split; [done|]. split; [done|]. split; [done|].
  destruct (erase_old (to_float (time - 5)) frames); cbn; by eexists.
Qed.

(** With a clock that never goes back (the window's times do not decrease
    and none is later than the new time), the window after recording is
    again in time order and every sample in it lies between the cutoff and
    the new time. *)
Theorem window_spans_cutoff_to_now (frames : list frame_time) (time fps : Q) :
  to_float (time - 5) <= time ->
  nondecreasing (map fst frames) ->
  Forall (fun f => fst f <= time) frames ->
  let window := record_frame to_float frames time fps in
  nondecreasing (map fst window)
  /\ Forall (fun f => to_float (time - 5) <= fst f /\ fst f <= time) window.
Proof.
  intros Hcut Hs Hle window.
  assert (Hall : nondecreasing (map fst (frames ++ [(time, fps)]))).
  { rewrite map_app. cbn. apply nondecreasing_app_last; [done|].
    by apply List.Forall_map. }
  destruct (erase_old_sorted (to_float (time - 5)) _ Hall) as [Hs' Hge].
  split; [exact Hs'|].
  unfold window, record_frame.
  destruct (erase_old_suffix (to_float (time - 5)) (frames ++ [(time, fps)]))
    as (dropped & Heq & _).
  assert (Hle' : Forall (fun f => fst f <= time) (frames ++ [(time, fps)])).
  { apply Forall_app. split; [done|]. constructor; [cbn; lra|constructor]. }
  rewrite Heq in Hle'. apply Forall_app in Hle' as [_ Hle'].
  apply Forall_forall. intros f Hf.
  rewrite Forall_forall in Hge. rewrite Forall_forall in Hle'.
  split; [by apply Hge | by apply Hle'].
Qed.

End frame_time_facts.

Section frame_plot_facts.
Import FrameTimes.
#[local] Open Scope Q_scope.

Lemma plot_in_range (window : list frame_time) (lo hi : Q) :
  nondecreasing (map fst window) ->
  Forall (fun f => lo <= fst f /\ fst f <= hi) window ->
  match plot_times exact window with
  | Some ts => Forall (fun t => 0 <= t /\ t <= hi - lo) ts
  | None => window = []
  end.
Proof.
  destruct window as [|front rest]; [done|].
  intros [Hfront _] Hall. cbn [plot_times].
  apply List.Forall_map. apply Forall_cons in Hall as [Hf Hall].
  constructor.
  - cbn. unfold exact. lra.
  - assert (Hfront' : Forall (fun g => fst front <= fst g) rest)
      by (by apply List.Forall_map).
    clear Hfront. rename Hfront' into Hfront.
    apply Forall_forall. intros f Hin.
    rewrite Forall_forall in Hfront. rewrite Forall_forall in Hall.
    specialize (Hfront f Hin). specialize (Hall f Hin). cbn in *. unfold exact. lra.
Qed.

(** With a clock that never goes back and exact arithmetic, what is plotted
    after recording a sample is one abscissa per kept sample, each between 0
    and 5: the plot stays inside the axis limits 0 to 5 set for it. *)
Theorem plotted_times_within_axis (frames : list frame_time) (time fps : Q) :
  nondecreasing (map fst frames) ->
  Forall (fun f => fst f <= time) frames ->
  exists ts,
    plot_times exact (record_frame exact frames time fps) = Some ts
    /\ length ts = length (record_frame exact frames time fps)
    /\ Forall (fun t => 0 <= t /\ t <= 5) ts.
Proof.
  intros Hs Hle.
  assert (Hcut : exact (time - 5) <= time) by (unfold exact; lra).
  destruct (window_spans_cutoff_to_now exact frames time fps Hcut Hs Hle)
    as [Hs' Hall].
  pose proof (plot_in_range _ _ _ Hs' Hall) as Hplot.
  destruct (plot_times exact (record_frame exact frames time fps)) as [ts|] eqn:Hts.
  - exists ts. split; [done|]. split.
    + destruct (record_frame exact frames time fps); [done|].
      cbn in Hts. injection Hts as <-. cbn. by rewrite length_map.
    + eapply Forall_impl; [exact Hplot|]. intros t Ht. cbn in Ht.
      unfold exact in Ht. lra.
  - destruct (recorded_frame_is_kept exact frames time fps Hcut)
      as (_ & _ & _ & _ & _ & [ts Hsome]).
    congruence.
Qed.

End frame_plot_facts.

(* ================================================================== *)
(** * Instances of the input, movement and frame-time properties *)

Lemma orientation_frozen_without_hovered_left_press_witness :
  Camera.dragging Camera.initial_pointer = false
  /\ Forall (fun i => Camera.is_left_press i = false)
       [Camera.CursorPos 3 4;
        Camera.MouseButton Camera.GLFW_MOUSE_BUTTON_LEFT Camera.GLFW_RELEASE;
        Camera.Hovered true; Camera.CursorPos 40 7]
  /\ let s' := Camera.run Camera.exact Camera.exact
                 [Camera.CursorPos 3 4;
                  Camera.MouseButton Camera.GLFW_MOUSE_BUTTON_LEFT Camera.GLFW_RELEASE;
                  Camera.Hovered true; Camera.CursorPos 40 7]
                 Camera.initial_pointer in
     Camera.dragging s' = false
     /\ Camera.yaw s' = Camera.yaw Camera.initial_pointer
     /\ Camera.pitch s' = Camera.pitch Camera.initial_pointer.
Proof.
  assert (Hno : Forall (fun i => Camera.is_left_press i = false)
                  [Camera.CursorPos 3 4;
                   Camera.MouseButton Camera.GLFW_MOUSE_BUTTON_LEFT Camera.GLFW_RELEASE;
                   Camera.Hovered true; Camera.CursorPos 40 7]).
  { repeat constructor. }
  split; [reflexivity|]. split; [exact Hno|].
  exact (orientation_frozen_without_hovered_left_press
           Camera.exact Camera.exact _ Camera.initial_pointer eq_refl (or_introl Hno)).
Defined.

Lemma first_cursor_event_does_not_jump_witness :
  Camera.first_mouse (Camera.mk_pointer 500 500 true 0 0 true true) = true
  /\ (-89 <= Camera.pitch (Camera.mk_pointer 500 500 true 0 0 true true) <= 89)%Q
  /\ let s := Camera.mk_pointer 500 500 true 0 0 true true in
     let s' := Camera.mouse_callback Camera.exact Camera.exact s 12 900 in
     (Camera.yaw s' == Camera.yaw s)%Q /\ (Camera.pitch s' == Camera.pitch s)%Q.
Proof.
  assert (Hp : (-89 <= Camera.pitch (Camera.mk_pointer 500 500 true 0 0 true true)
                <= 89)%Q).
  { cbn. split; lra. }
  split; [reflexivity|]. split; [exact Hp|].
  destruct (first_cursor_event_does_not_jump
              (Camera.mk_pointer 500 500 true 0 0 true true) 12 900 eq_refl Hp)
    as (Hy & Hpitch & _).
  split; [exact Hy | exact Hpitch].
Defined.

Lemma recorded_frame_is_kept_witness :
  (FrameTimes.exact (7 - 5) <= 7)%Q
  /\ exists dropped kept,
       [(1, 60); (3, 58); (6, 61)]%Q = dropped ++ kept
       /\ FrameTimes.record_frame FrameTimes.exact [(1, 60); (3, 58); (6, 61)]%Q 7 59
          = kept ++ [(7, 59)]%Q.
Proof.
  assert (Hcut : (FrameTimes.exact (7 - 5) <= 7)%Q).
  { unfold FrameTimes.exact. lra. }
  split; [exact Hcut|].
  destruct (recorded_frame_is_kept FrameTimes.exact
              [(1, 60); (3, 58); (6, 61)]%Q 7 59 Hcut)
    as (dropped & kept & Heq & Hrec & _).
  exists dropped, kept. split; [exact Heq | exact Hrec].
Defined.

Lemma window_spans_cutoff_to_now_witness :
  (FrameTimes.exact (7 - 5) <= 7)%Q
  /\ FrameTimes.nondecreasing (map fst [(1, 60); (3, 58); (6, 61)]%Q)
  /\ Forall (fun f => (fst f <= 7)%Q) [(1, 60); (3, 58); (6, 61)]%Q
  /\ FrameTimes.nondecreasing
       (map fst (FrameTimes.record_frame FrameTimes.exact
                   [(1, 60); (3, 58); (6, 61)]%Q 7 59)).
Proof.
  assert (Hcut : (FrameTimes.exact (7 - 5) <= 7)%Q).
  { unfold FrameTimes.exact. lra. }
  assert (Hs : FrameTimes.nondecreasing (map fst [(1, 60); (3, 58); (6, 61)]%Q)).
  { cbn. repeat split; repeat constructor; lra. }
  assert (Hle : Forall (fun f => (fst f <= 7)%Q) [(1, 60); (3, 58); (6, 61)]%Q).
  { repeat constructor; cbn; lra. }
  split; [exact Hcut|]. split; [exact Hs|]. split; [exact Hle|].
  exact (proj1 (window_spans_cutoff_to_now FrameTimes.exact
                  [(1, 60); (3, 58); (6, 61)]%Q 7 59 Hcut Hs Hle)).
Defined.

Lemma plotted_times_within_axis_witness :
  FrameTimes.nondecreasing (map fst [(1, 60); (3, 58); (6, 61)]%Q)
  /\ Forall (fun f => (fst f <= 7)%Q) [(1, 60); (3, 58); (6, 61)]%Q
  /\ exists ts,
       FrameTimes.plot_times FrameTimes.exact
         (FrameTimes.record_frame FrameTimes.exact [(1, 60); (3, 58); (6, 61)]%Q 7 59)
       = Some ts
       /\ Forall (fun t => (0 <= t /\ t <= 5)%Q) ts.
Proof.
  assert (Hs : FrameTimes.nondecreasing (map fst [(1, 60); (3, 58); (6, 61)]%Q)).
  { cbn. repeat split; repeat constructor; lra. }
  assert (Hle : Forall (fun f => (fst f <= 7)%Q) [(1, 60); (3, 58); (6, 61)]%Q).
  { repeat constructor; cbn; lra. }
  split; [exact Hs|]. split; [exact Hle|].
  destruct (plotted_times_within_axis [(1, 60); (3, 58); (6, 61)]%Q 7 59 Hs Hle)
    as (ts & Hplot & _ & Hrange).
  exists ts. split; [exact Hplot | exact Hrange].
Defined.
